(** * honeyalb: the ingest command of cmd/honeyalb/main.go

    A shallow embedding of [main], [cmdALB] and [ingestALB].  The program
    talks to the outside world only through library calls (the AWS SDK,
    logrus, fmt, os, the honeyaws packages), so a run is modelled as the
    sequence of those calls, in program order, together with the way the
    run ends.  What the libraries answer is read from a [World]. *)

From Stdlib Require Import ZArith.
From stdpp Require Import base decidable list strings gmap.

Local Open Scope string_scope.
Local Open Scope Z_scope.
Local Open Scope list_scope.

(** ** Values that cross the library boundary *)

(** Go [error] values.  [fmt.Errorf] with the verb [%q] is kept as the format
    and its argument, so that no quoting function has to be re-implemented. *)
Inductive error :=
| ErrorsNew (text : string)               (* errors.New(text) *)
| Errorf (format : string) (arg : string) (* fmt.Errorf(format, arg) *)
| LibError (text : string).               (* an error made by a library *)

(** Modelled from the spec: [state.DownloadedObject] is declared in the
    honeyaws [state] package, which is not part of this file; the fields are
    those of the spec's data model (section 3, DownloadedObject). *)
Record DownloadedObject := {
  ResourceID : string;
  ObjectKey : string;
  ContentHandle : string;
  DiscoveredAt : Z
}.

(** The two implementations of the [state.Stater] interface. *)
Inductive Stater := DynamoDBStater | FileStater.

(** logrus levels, most severe first. *)
Inductive Level :=
  PanicLevel | FatalLevel | ErrorLevel | WarnLevel | InfoLevel | DebugLevel.

(** Arguments of print and log calls. *)
Inductive Value :=
| VStr (s : string)
| VInt (z : Z)
| VDuration (nanoseconds : Z)
| VErr (e : error)
| VObject (d : DownloadedObject)
| VDynamoTableName.                       (* the constant state.DynamoTableName *)

#[global] Instance error_eq_dec : EqDecision error.
Proof. solve_decision. Defined.
#[global] Instance DownloadedObject_eq_dec : EqDecision DownloadedObject.
Proof. solve_decision. Defined.
#[global] Instance Stater_eq_dec : EqDecision Stater.
Proof. solve_decision. Defined.
#[global] Instance Level_eq_dec : EqDecision Level.
Proof. solve_decision. Defined.
#[global] Instance Value_eq_dec : EqDecision Value.
Proof. solve_decision. Defined.

(** ** Calls *)

Inductive Event :=
| Println (args : list Value)                    (* fmt.Println *)
| EPrintln (args : list Value)                   (* fmt.Fprintln(os.Stderr, ..) *)
| EPrintf (format : string) (args : list Value)  (* fmt.Fprintf(os.Stderr, ..) *)
| Log (lvl : Level) (fields : list (string * Value)) (msg : Value)
| SetLevel (lvl : Level)
| SetFormatter
| OsStat (path : string)
| NewSession
| DescribeLoadBalancers (names : list string)
| DescribeLoadBalancerAttributes (arn : string)
| NewDynamoDBStater (hours : Z)
| NewFileStater (dir : string) (hours : Z)
| NewHoneycombPublisher (st : Stater)
| GoDownload (st : Stater) (bucket prefix id : string) (hours : Z)
| SignalNotify
| GoSignalWaiter
| Publish (d : DownloadedObject).

#[global] Instance Event_eq_dec : EqDecision Event.
Proof. solve_decision. Defined.

(** ** The process monad: a call trace and the way the code ends *)

Inductive Outcome (A : Type) :=
| Ret (a : A)        (* the function returns a *)
| Exit (code : Z)    (* os.Exit(code), also through logrus.Fatal *)
| Panic              (* an unrecovered run-time panic *)
| Blocked.           (* waiting on a channel that has nothing more to give *)

Arguments Ret {A} a.
Arguments Exit {A} code.
Arguments Panic {A}.
Arguments Blocked {A}.

Definition M (A : Type) : Type := (list Event * Outcome A)%type.

Definition ret {A} (a : A) : M A := ([], Ret a).

Definition bind {A B} (m : M A) (k : A -> M B) : M B :=
  match m with
  | (t, Ret a) => let '(t', o) := k a in (t ++ t', o)
  | (t, Exit c) => (t, Exit c)
  | (t, Panic) => (t, Panic)
  | (t, Blocked) => (t, Blocked)
  end.

Notation "x <- m ;; k" := (bind m (fun x => k))
  (at level 20, m at level 99, k at level 200, format "x  <-  m  ;;  '/' k").
Notation "m ;; k" := (bind m (fun _ => k))
  (at level 100, k at level 200, right associativity, format "m  ;;  '/' k").

Definition call (e : Event) : M unit := ([e], Ret tt).
Definition osExit {A} (code : Z) : M A := ([], Exit code).
Definition panic {A} : M A := ([], Panic).
Definition blocked {A} : M A := ([], Blocked).

Definition when (b : bool) (m : M unit) : M unit := if b then m else ret tt.

Fixpoint forEach {A} (l : list A) (body : A -> M unit) : M unit :=
  match l with
  | [] => ret tt
  | x :: l' => body x ;; forEach l' body
  end.

(** logrus: an entry of any level is a call; [Fatal] then calls [os.Exit(1)]. *)
Definition logrusLog (lvl : Level) (fields : list (string * Value)) (msg : Value)
  : M unit := call (Log lvl fields msg).

Definition logrusFatal {A} (fields : list (string * Value)) (msg : Value) : M A :=
  call (Log FatalLevel fields msg) ;; osExit 1.

Definition trace {A} (m : M A) : list Event := fst m.
Definition outcome {A} (m : M A) : Outcome A := snd m.

(** The exit status the operating system sees; [None] while the process is
    still running.  The Go run time exits with status 2 on a panic. *)
Definition exitStatus (o : Outcome unit) : option Z :=
  match o with
  | Ret _ => Some 0
  | Exit c => Some c
  | Panic => Some 2
  | Blocked => None
  end.

(** ** Configuration and the outside world *)

(** The fields of [options.Options] that main.go reads. *)
Record Options := {
  WriteKey : string;
  Dataset : string;
  StateDir : string;
  BackfillHr : Z;
  HighAvail : bool;
  Debug : bool;
  Version : bool
}.

(** An element of the answer of DescribeLoadBalancers.  The SDK hands out
    pointers ([*string] for the name and the ARN, and for the key and the
    value of an attribute); the embedding takes them as set, as the service
    sends them: an answer with a nil pointer, on which main.go would panic
    when it dereferences it, is outside the model. *)
Record LoadBalancer := {
  LoadBalancerName : string;
  LoadBalancerArn : string
}.

Inductive StatResult := StatOk | StatNotExist | StatOtherError.

#[global] Instance StatResult_eq_dec : EqDecision StatResult.
Proof. solve_decision. Defined.

(** What happens once the signal handler is installed and the publisher loop
    runs, in the order in which it happens.  The loop of lines 129-137 and
    the goroutine of lines 124-127 run concurrently, so the interrupt has
    two moments:
    - [Download d result]: the loop receives [d] from [downloadsCh] and
      hands it to [Publish], which answers [result];
    - [SignalDelivered]: the interrupt signal reaches the process and is
      sent on [signalCh]; the loop goes on receiving and publishing;
    - [Interrupt]: the signal goroutine gets to run: it logs and exits the
      process through [logrus.Fatal].
    A signal that finds no goroutine waiting on the unbuffered [signalCh] is
    dropped by the signal package and is no arrival.  The downloader
    goroutines themselves belong to the [logbucket] package and make no
    call of main.go. *)
Inductive Arrival :=
| Download (d : DownloadedObject) (result : option error)
| SignalDelivered
| Interrupt.

Record World := {
  newSession : option error;
  describeLoadBalancers : list string -> error + list LoadBalancer;
  describeLoadBalancerAttributes : string -> error + list (string * string);
  newDynamoDBStater : option error;
  osStat : string -> StatResult;
  arrivals : list Arrival
}.

(** What the flag parser hands to [main], with the link-time [BuildID]. *)
Record Invocation := {
  BuildID : string;
  argv0 : string;
  parsed : error + (Options * list string)
}.

(** [init]: the version string. *)
Definition versionStr (inv : Invocation) : string :=
  if String.eqb (BuildID inv) "" then "dev" else BuildID inv.

(** int64 wrap-around, for [time.Duration(opt.BackfillHr) * time.Hour]. *)
Definition wrap64 (z : Z) : Z := (z + 2 ^ 63) mod 2 ^ 64 - 2 ^ 63.
Definition timeHour : Z := 3600000000000.

(** ** ingestALB (main.go, lines 188-247) *)

(** The loop over the attributes of the load balancer (lines 213-223). *)
Definition scanAttribute (acc : bool * string * string) (element : string * string)
  : bool * string * string :=
  let '(enabled, bucketName, bucketPrefix) := acc in
  let '(key, value) := element in
  let enabled :=
    if String.eqb key "access_logs.s3.enabled" && String.eqb value "true"
    then true else enabled in
  let bucketName :=
    if String.eqb key "access_logs.s3.bucket" then value else bucketName in
  let bucketPrefix :=
    if String.eqb key "access_logs.s3.prefix" then value else bucketPrefix in
  (enabled, bucketName, bucketPrefix).

Definition scanAttributes (attrs : list (string * string)) : bool * string * string :=
  fold_left scanAttribute attrs (false, "", "").

Definition accessLogsHelp : string :=
  "Access logs are not configured for ALB %q. Please enable them to use the ingest tool.

For reference see this link:

http://docs.aws.amazon.com/elasticloadbalancing/latest/application/load-balancer-access-logs.html#enable-access-logging
".

Definition ingestALB (w : World) (opt : Options) (id : string) (stater : Stater)
  : M (option error) :=
  call (DescribeLoadBalancers [id]) ;;
  match describeLoadBalancers w [id] with
  | inl err => logrusFatal [] (VErr err)
  | inr lbs =>
    match lbs with
    | [] => panic                          (* LoadBalancers[0], index out of range *)
    | lb :: _ =>
      let lbArn := LoadBalancerArn lb in
      call (DescribeLoadBalancerAttributes lbArn) ;;
      match describeLoadBalancerAttributes w lbArn with
      | inl err => logrusFatal [] (VErr err)
      | inr attrs =>
        let '(enabled, bucketName, bucketPrefix) := scanAttributes attrs in
        if negb enabled then
          call (EPrintf accessLogsHelp [VStr id]) ;;
          ret (Some (ErrorsNew "access logs no enabled"))
        else
          logrusLog InfoLevel [("bucket", VStr bucketName); ("lbName", VStr id)]
                    (VStr "Access logs are enabled for ALB ♥") ;;
          call (GoDownload stater bucketName bucketPrefix id (BackfillHr opt)) ;;
          ret None
      end
    end
  end.

(** ** cmdALB (lines 40-142) and main (lines 144-186) *)

(** The receive loop of lines 129-137, run against what arrives.  The loop
    itself has no exit and makes no call when the signal is delivered; the
    goroutine of lines 124-127 ends the process when it gets to run. *)
Fixpoint publishLoop {A} (inbox : list Arrival) : M A :=
  match inbox with
  | [] => blocked
  | Interrupt :: _ => logrusFatal [] (VStr "Exiting due to interrupt.")
  | SignalDelivered :: inbox' => publishLoop inbox'
  | Download download result :: inbox' =>
    call (Publish download) ;;
    match result with
    | Some err =>
      logrusLog ErrorLevel [("object", VObject download); ("error", VErr err)]
                (VStr "Cannot properly publish downloaded object")
    | None => ret tt
    end ;;
    publishLoop inbox'
  end.

Definition writeKeyHelp : string :=
  "--writekey must be set to the proper write key for the Honeycomb team.
Your write key is available at https://ui.honeycomb.io/account".

Definition dynamoHelp : string :=
  "--highavail requires an existing DynamoDB table named appropriately, please refer to the README.".

Definition usage (inv : Invocation) : string :=
  ("Usage: " +:+ argv0 inv +:+ " [--flags] [ls|ingest] [ALB names...]

Use '" +:+ argv0 inv +:+ " --help' to see available flags.")%string.

Definition setDataset (opt : Options) (d : string) : Options :=
  {| WriteKey := WriteKey opt; Dataset := d; StateDir := StateDir opt;
     BackfillHr := BackfillHr opt; HighAvail := HighAvail opt;
     Debug := Debug opt; Version := Version opt |}.

(** Lines 162-164: the default data set name is specialised. *)
Definition fixDataset (opt : Options) : Options :=
  if String.eqb (Dataset opt) "aws-$SERVICE-access"
  then setDataset opt "aws-elb-access" else opt.

Section Command.

(** [cmdALB] calls a function named [ingestDist], which main.go does not
    define: it is taken as a parameter, and instantiated below with
    [ingestALB], the per-load-balancer function of the file, which has
    the same signature. *)
Variable ingestDist : World -> Options -> string -> Stater -> M (option error).

(** The loop of lines 102-119; [explicit] is [args[1:]]. *)
Definition ingestAll (w : World) (opt : Options) (explicit lbNames : list string)
           (stater : Stater) : M unit :=
  forEach lbNames (fun lbName =>
    logrusLog InfoLevel [("lbName", VStr lbName)] (VStr "Attempting to ingest ALB") ;;
    err <- ingestDist w opt lbName stater ;;
    match err with
    | Some _ =>
      when (0 <? Z.of_nat (length explicit))
           (logrusFatal [] (VStr "Exiting due to fatal error.")) ;;
      logrusLog ErrorLevel [("id", VStr lbName)]
        (VStr "Could not ingest data from a load balancer! See logs for more information.")
    | None => ret tt
    end).

(** The state.Stater of lines 86-95. *)
Definition newStater (w : World) (opt : Options) : M Stater :=
  if HighAvail opt then
    call (NewDynamoDBStater (BackfillHr opt)) ;;
    match newDynamoDBStater w with
    | Some _ => logrusFatal [("tableName", VDynamoTableName)] (VStr dynamoHelp)
    | None =>
      logrusLog InfoLevel []
        (VStr "State tracking with high availability enabled - using DynamoDB") ;;
      ret DynamoDBStater
    end
  else
    call (NewFileStater (StateDir opt) (BackfillHr opt)) ;;
    logrusLog InfoLevel [] (VStr "State tracking enabled - using local file system.") ;;
    ret FileStater.

Definition cmdALB (w : World) (opt : Options) (args : list string)
  : M (option error) :=
  call NewSession ;;
  match newSession w with
  | Some _ => panic                                   (* session.Must *)
  | None =>
    call (DescribeLoadBalancers []) ;;
    match describeLoadBalancers w [] with
    | inl err => ret (Some err)
    | inr loadBalancers =>
      match args with
      | [] => panic                                   (* args[0], line 141 *)
      | sub :: explicit =>
        if String.eqb sub "ls" || String.eqb sub "list" then
          forEach loadBalancers (fun lb => call (Println [VStr (LoadBalancerName lb)])) ;;
          ret None
        else if String.eqb sub "ingest" then
          when (String.eqb (WriteKey opt) "") (logrusFatal [] (VStr writeKeyHelp)) ;;
          let lbNames :=
            match explicit with
            | [] => map LoadBalancerName loadBalancers
            | _ => explicit
            end in
          when ((BackfillHr opt <? 1) || (BackfillHr opt >? 168))
               (logrusFatal [("hours", VInt (BackfillHr opt))]
                  (VStr "--backfill requires an hour input between 1 and 168")) ;;
          stater <- newStater w opt ;;
          logrusLog DebugLevel
            [("hours", VDuration (wrap64 (BackfillHr opt * timeHour)))]
            (VStr "Backfill will be") ;;
          call (NewHoneycombPublisher stater) ;;
          ingestAll w opt explicit lbNames stater ;;
          call SignalNotify ;;
          call GoSignalWaiter ;;
          publishLoop (arrivals w)
        else
          ret (Some (Errorf "Subcommand %q not recognized" sub))
      end
    end
  end.

Definition main (w : World) (inv : Invocation) : M unit :=
  match parsed inv with
  | inl _ => osExit 1
  | inr (opt, args) =>
    when (Debug opt) (call (SetLevel DebugLevel)) ;;
    call SetFormatter ;;
    logrusLog DebugLevel [("version", VStr (BuildID inv))] (VStr "Program starting") ;;
    let opt := fixDataset opt in
    call (OsStat (StateDir opt)) ;;
    match osStat w (StateDir opt) with
    | StatNotExist =>
      logrusFatal [("dir", VStr (StateDir opt))]
                  (VStr "Specified state directory does not exist")
    | _ => ret tt
    end ;;
    when (Version opt)
         (call (Println [VStr "honeyalb version"; VStr (versionStr inv)]) ;; osExit 0) ;;
    match args with
    | [] => call (EPrintln [VStr (usage inv)]) ;; osExit 1
    | _ =>
      err <- cmdALB w opt args ;;
      match err with
      | Some e => call (EPrintln [VStr "Error: "; VErr e]) ;; osExit 1
      | None => ret tt
      end
    end
  end.

End Command.

(** The program, with [ingestALB] for the per-load-balancer call. *)
Definition honeyalb (w : World) (inv : Invocation) : M unit := main ingestALB w inv.

(** ** Observations on runs *)

Definition isLedgerCall (e : Event) : bool :=
  match e with
  | NewDynamoDBStater _ | NewFileStater _ _ => true
  | _ => false
  end.

Definition isFileStaterCall (e : Event) : bool :=
  match e with NewFileStater _ _ => true | _ => false end.

(** Calls that belong to the monitoring of a load balancer or to publishing. *)
Definition isIngestCall (e : Event) : bool :=
  match e with
  | DescribeLoadBalancers (_ :: _) | DescribeLoadBalancerAttributes _
  | GoDownload _ _ _ _ _ | NewHoneycombPublisher _ | Publish _ => true
  | _ => false
  end.

(** The objects handed to [Publish], in call order. *)
Definition publishAttempts (t : list Event) : list DownloadedObject :=
  omap (fun e => match e with Publish d => Some d | _ => None end) t.

Definition isInterrupt (a : Arrival) : bool :=
  match a with Interrupt => true | Download _ _ | SignalDelivered => false end.

(** The objects received from the channel, in order. *)
Fixpoint downloads (inbox : list Arrival) : list DownloadedObject :=
  match inbox with
  | [] => []
  | Download d _ :: inbox' => d :: downloads inbox'
  | SignalDelivered :: inbox' => downloads inbox'
  | Interrupt :: inbox' => downloads inbox'
  end.

(** What happens before the signal goroutine ends the process. *)
Fixpoint beforeInterrupt (inbox : list Arrival) : list Arrival :=
  match inbox with
  | [] => []
  | Interrupt :: _ => []
  | a :: inbox' => a :: beforeInterrupt inbox'
  end.

(** What the two describe calls of [ingestALB] tell about a load balancer:
    [None] when one of them fails or finds nothing, else whether access
    logs are enabled. *)
Definition accessLogs (w : World) (id : string) : option bool :=
  match describeLoadBalancers w [id] with
  | inr (lb :: _) =>
    match describeLoadBalancerAttributes w (LoadBalancerArn lb) with
    | inr attrs => Some (scanAttributes attrs).1.1
    | inl _ => None
    end
  | _ => None
  end.

(** The calls of [main] before the state directory is looked at. *)
Definition mainPrelude (inv : Invocation) (opt : Options) : list Event :=
  (if Debug opt then [SetLevel DebugLevel] else []) ++
  [SetFormatter;
   Log DebugLevel [("version", VStr (BuildID inv))] (VStr "Program starting");
   OsStat (StateDir opt)].

Definition recognized (sub : string) : bool :=
  String.eqb sub "ls" || String.eqb sub "list" || String.eqb sub "ingest".

Definition errPublish (d : DownloadedObject) (err : error) : Event :=
  Log ErrorLevel [("object", VObject d); ("error", VErr err)]
      (VStr "Cannot properly publish downloaded object").

Definition fatalInterrupt : Event :=
  Log FatalLevel [] (VStr "Exiting due to interrupt.").

Definition fatalResource : Event :=
  Log FatalLevel [] (VStr "Exiting due to fatal error.").

Definition errIngest (id : string) : Event :=
  Log ErrorLevel [("id", VStr id)]
    (VStr "Could not ingest data from a load balancer! See logs for more information.").

(** The calls of the publisher loop, as a function of what arrives. *)
Fixpoint loopCalls (inbox : list Arrival) : list Event :=
  match inbox with
  | [] => []
  | Interrupt :: _ => [fatalInterrupt]
  | SignalDelivered :: inbox' => loopCalls inbox'
  | Download d r :: inbox' =>
    Publish d :: match r with Some err => [errPublish d err] | None => [] end
              ++ loopCalls inbox'
  end.

(** The load balancers the ingest subcommand works on (lines 70-78). *)
Definition targets (loadBalancers : list LoadBalancer) (explicit : list string)
  : list string :=
  match explicit with
  | [] => map LoadBalancerName loadBalancers
  | _ => explicit
  end.

Definition staterOf (opt : Options) : Stater :=
  if HighAvail opt then DynamoDBStater else FileStater.

(** The calls of a start of the ingest subcommand that gets as far as the
    loop over the load balancers. *)
Definition startCalls (opt : Options) : list Event :=
  [NewSession; DescribeLoadBalancers []] ++
  (if HighAvail opt
   then [NewDynamoDBStater (BackfillHr opt);
         Log InfoLevel []
           (VStr "State tracking with high availability enabled - using DynamoDB")]
   else [NewFileStater (StateDir opt) (BackfillHr opt);
         Log InfoLevel [] (VStr "State tracking enabled - using local file system.")]) ++
  [Log DebugLevel [("hours", VDuration (wrap64 (BackfillHr opt * timeHour)))]
       (VStr "Backfill will be");
   NewHoneycombPublisher (staterOf opt)].

Definition fatalWriteKey : Event := Log FatalLevel [] (VStr writeKeyHelp).

Definition fatalBackfill (opt : Options) : Event :=
  Log FatalLevel [("hours", VInt (BackfillHr opt))]
      (VStr "--backfill requires an hour input between 1 and 168").

Definition fatalDynamo : Event :=
  Log FatalLevel [("tableName", VDynamoTableName)] (VStr dynamoHelp).

Definition fatalStateDir (opt : Options) : Event :=
  Log FatalLevel [("dir", VStr (StateDir opt))]
      (VStr "Specified state directory does not exist").

Definition attempt (id : string) : Event :=
  Log InfoLevel [("lbName", VStr id)] (VStr "Attempting to ingest ALB").

(** Whatever the load balancers answer, the loop only makes calls that
    concern the load balancers it is given, and it ends by returning, by a
    fatal log entry, or by a panic. *)
Definition setupCall (w : World) (explicit names : list string) (e : Event) : Prop :=
  publishAttempts [e] = [] /\ e <> SignalNotify /\ e <> GoSignalWaiter /\
  isLedgerCall e = false /\
  (forall q, e = DescribeLoadBalancers [q] -> q ∈ names) /\
  (forall s b p q h, e = GoDownload s b p q h ->
                     q ∈ names /\ accessLogs w q = Some true) /\
  (forall q, e = errIngest q ->
             explicit = [] /\ q ∈ names /\ accessLogs w q = Some false) /\
  (e = fatalResource -> explicit <> []).

(** ** The ingestion pipeline behind [downloader.Download]

    [ingestALB] ends by starting [downloader.Download] on a goroutine
    (line 244); the downloader, the ledger and the publisher live in the
    honeyaws packages [logbucket], [state] and [publisher], which main.go
    only imports.  They are modelled here from the spec. *)

Module Pipeline.

(** Modelled from the spec: the two Ledger variants of section 4.1; the
    [state] package that implements them is missing. *)
Inductive Variant := SingleNode | Distributed.

Inductive MarkError := Conflict | StoreFailure.

(** Modelled from the spec: [Seen(key) -> bool] of the Ledger contract
    (section 4.1, [state] package missing).  The ledger holds one
    LedgerEntry per ObjectKey, the key with its ProcessedAtTimestamp. *)
Definition Seen (L : gmap string Z) (key : string) : bool :=
  bool_decide (is_Some (L !! key)).

(** Modelled from the spec: [Recent(window) -> set of ObjectKey], the
    entries within the backfill window (section 4.1, [state] package
    missing). *)
Definition Recent (now window : Z) (L : gmap string Z) : gset string :=
  dom (filter (fun entry => now - window <= entry.2) L).

(** Modelled from the spec: [MarkProcessed(key) -> error] (section 4.1,
    [state] package missing).  The single-node variant is a plain durable
    write; the distributed variant is an insert-if-absent that reports a
    conflict when the key is there already.  [writable] says whether the
    store accepts the write. *)
Definition MarkProcessed (v : Variant) (writable : bool) (now : Z) (key : string)
           (L : gmap string Z) : MarkError + gmap string Z :=
  if negb writable then inl StoreFailure
  else match v with
       | SingleNode => inr (<[key := now]> L)
       | Distributed =>
         if Seen L key then inl Conflict else inr (<[key := now]> L)
       end.

(** Modelled from the spec: an entry of [ListObjects], an ObjectKey with
    its timestamp (section 6, object-store client). *)
Record Listed := { listedKey : string; lastModified : Z }.

(** Modelled from the spec: what the collaborators answer during one poll:
    [Fetch(ObjectKey)] gives a content handle or fails, and the ledger
    store takes the write for a key or not (sections 6 and 7). *)
Record Collaborators := {
  fetch : string -> option string;
  ledgerWritable : string -> bool
}.

(** Modelled from the spec: timestamps within [[now - BackfillWindow, now]]
    (section 4.2, [logbucket] package missing). *)
Definition inWindow (now window : Z) (o : Listed) : bool :=
  (now - window <=? lastModified o) && (lastModified o <=? now).

Definition candidates (now window : Z) (listing : list Listed) : gset string :=
  list_to_set (map listedKey (List.filter (inWindow now window) listing)).

(** Modelled from the spec: the Resource Monitor's treatment of one new
    key (section 4.2, [logbucket] package missing): download the content,
    call [MarkProcessed], and only when the mark succeeds emit a
    DownloadedObject. *)
Definition processKey (v : Variant) (c : Collaborators) (resource : string) (now : Z)
           (acc : gmap string Z * list DownloadedObject) (key : string)
  : gmap string Z * list DownloadedObject :=
  let '(L, out) := acc in
  if Seen L key then acc
  else match fetch c key with
       | None => acc
       | Some handle =>
         match MarkProcessed v (ledgerWritable c key) now key L with
         | inl _ => acc
         | inr L' =>
           (L', out ++ [{| ResourceID := resource; ObjectKey := key;
                           ContentHandle := handle; DiscoveredAt := now |}])
         end
       end.

(** Modelled from the spec: one poll of the Resource Monitor (section 4.2,
    [logbucket] package missing): the keys listed inside the window, minus
    the recent ledger entries, each handled by [processKey].  The result
    is the ledger after the poll and what was put on the Dispatch Channel. *)
Definition pollOnce (v : Variant) (c : Collaborators) (resource : string)
           (now window : Z) (listing : list Listed) (L : gmap string Z)
  : gmap string Z * list DownloadedObject :=
  foldl (processKey v c resource now) (L, [])
        (elements (candidates now window listing ∖ Recent now window L)).

(** The pipeline run twice over the same window and listing, the second
    run starting from the ledger the first one left. *)
Definition pollTwice (v : Variant) (c1 c2 : Collaborators) (resource : string)
           (now window : Z) (listing : list Listed) (L : gmap string Z)
  : list DownloadedObject :=
  let '(L1, out1) := pollOnce v c1 resource now window listing L in
  let '(_, out2) := pollOnce v c2 resource now window listing L1 in
  out1 ++ out2.

Definition succeeds (c : Collaborators) (key : string) : bool :=
  bool_decide (is_Some (fetch c key)) && ledgerWritable c key.

(** The publish attempts for a key when the emitted objects reach the
    publisher loop of [cmdALB]. *)
Definition publishAttemptsFor (key : string) (emitted : list DownloadedObject) : nat :=
  count_occ String.string_dec
    (map ObjectKey
         (publishAttempts
            (trace (@publishLoop unit (map (fun d => Download d None) emitted)))))
    key.

Definition emits (L : gmap string Z) (c : Collaborators) (key : string) : bool :=
  negb (Seen L key) && succeeds c key.

Definition emitted (c : Collaborators) (resource : string) (now : Z) (key : string)
  : DownloadedObject :=
  {| ResourceID := resource; ObjectKey := key;
     ContentHandle := default "" (fetch c key); DiscoveredAt := now |}.

Definition markAll (now : Z) (L : gmap string Z) (keys : list string)
  : gmap string Z :=
  foldl (fun L key => <[key := now]> L) L keys.

Definition newKeys (now window : Z) (listing : list Listed) (L : gmap string Z)
  : list string :=
  elements (candidates now window listing ∖ Recent now window L).

End Pipeline.

(** ** Two readings of the specification that the code does not follow *)

(** The reading of the exit status on interrupt: a run that has installed
    the signal handler and receives the interrupt ends with status 0. *)
Definition interruptExitsZero (w : World) (inv : Invocation) : Prop :=
  Interrupt ∈ arrivals w ->
  SignalNotify ∈ trace (honeyalb w inv) ->
  exitStatus (outcome (honeyalb w inv)) = Some 0.

(** The reading of resource isolation: a load balancer without access logs
    ends the process only when it was the one load balancer named on the
    command line; in every other case the error is logged for it and every
    load balancer of the run is still attempted. *)
Definition resourceErrorIsolated (w : World) (opt : Options) (explicit : list string)
  : Prop :=
  forall lbs id,
    describeLoadBalancers w [] = inr lbs ->
    id ∈ targets lbs explicit ->
    accessLogs w id = Some false ->
    explicit <> [id] ->
    let run := cmdALB ingestALB w opt ("ingest" :: explicit) in
    errIngest id ∈ trace run /\
    forall other, other ∈ targets lbs explicit ->
                  DescribeLoadBalancers [other] ∈ trace run.

(** ** A small world for examples

    Two load balancers: [web] has no access logs, [api] has them.  One
    object arrives and fails to publish, one is published, then the
    interrupt comes, then one more object. *)

Definition lbWeb : LoadBalancer :=
  {| LoadBalancerName := "web"; LoadBalancerArn := "arn:web" |}.
Definition lbApi : LoadBalancer :=
  {| LoadBalancerName := "api"; LoadBalancerArn := "arn:api" |}.

Definition object1 : DownloadedObject :=
  {| ResourceID := "api"; ObjectKey := "logs/1.gz";
     ContentHandle := "/tmp/1.gz"; DiscoveredAt := 10 |}.
Definition object2 : DownloadedObject :=
  {| ResourceID := "api"; ObjectKey := "logs/2.gz";
     ContentHandle := "/tmp/2.gz"; DiscoveredAt := 11 |}.
Definition object3 : DownloadedObject :=
  {| ResourceID := "api"; ObjectKey := "logs/3.gz";
     ContentHandle := "/tmp/3.gz"; DiscoveredAt := 12 |}.

Definition demoWorld : World := {|
  newSession := None;
  describeLoadBalancers := fun names =>
    match names with
    | [] => inr [lbWeb; lbApi]
    | [n] =>
      if String.eqb n "web" then inr [lbWeb]
      else if String.eqb n "api" then inr [lbApi]
      else inl (LibError "LoadBalancerNotFound")
    | _ => inl (LibError "ValidationError")
    end;
  describeLoadBalancerAttributes := fun arn =>
    if String.eqb arn "arn:api"
    then inr [("access_logs.s3.enabled", "true");
              ("access_logs.s3.bucket", "bucket");
              ("access_logs.s3.prefix", "prefix")]
    else inr [("access_logs.s3.enabled", "false");
              ("access_logs.s3.bucket", "")];
  newDynamoDBStater := Some (LibError "ResourceNotFoundException");
  osStat := fun dir => if String.eqb dir "/nowhere" then StatNotExist else StatOk;
  arrivals := [Download object1 (Some (LibError "parse error"));
               Download object2 None; Interrupt; Download object3 None]
|}.

(** The same world where the listing fails. *)
Definition offlineWorld : World := {|
  newSession := None;
  describeLoadBalancers := fun _ => inl (LibError "RequestError");
  describeLoadBalancerAttributes := fun _ => inl (LibError "RequestError");
  newDynamoDBStater := None;
  osStat := fun _ => StatOk;
  arrivals := []
|}.

Definition demoOptions : Options := {|
  WriteKey := "secret"; Dataset := "aws-$SERVICE-access"; StateDir := ".";
  BackfillHr := 24; HighAvail := false; Debug := false; Version := false
|}.

Definition withBackfill (opt : Options) (h : Z) : Options :=
  {| WriteKey := WriteKey opt; Dataset := Dataset opt; StateDir := StateDir opt;
     BackfillHr := h; HighAvail := HighAvail opt;
     Debug := Debug opt; Version := Version opt |}.

Definition withHighAvail (opt : Options) : Options :=
  {| WriteKey := WriteKey opt; Dataset := Dataset opt; StateDir := StateDir opt;
     BackfillHr := BackfillHr opt; HighAvail := true;
     Debug := Debug opt; Version := Version opt |}.

Definition withWriteKey (opt : Options) (k : string) : Options :=
  {| WriteKey := k; Dataset := Dataset opt; StateDir := StateDir opt;
     BackfillHr := BackfillHr opt; HighAvail := HighAvail opt;
     Debug := Debug opt; Version := Version opt |}.

Definition withStateDir (opt : Options) (dir : string) (version : bool) : Options :=
  {| WriteKey := WriteKey opt; Dataset := Dataset opt; StateDir := dir;
     BackfillHr := BackfillHr opt; HighAvail := HighAvail opt;
     Debug := Debug opt; Version := version |}.

Definition demoInvocation (opt : Options) (args : list string) : Invocation :=
  {| BuildID := ""; argv0 := "honeyalb"; parsed := inr (opt, args) |}.

(** A listing for the pipeline: at hour 100 with a window of 24 hours,
    [logs/old.gz] is too old and [logs/seen.gz] is in the ledger already. *)
Definition demoListing : list Pipeline.Listed :=
  [{| Pipeline.listedKey := "logs/1.gz"; Pipeline.lastModified := 98 |};
   {| Pipeline.listedKey := "logs/old.gz"; Pipeline.lastModified := 70 |};
   {| Pipeline.listedKey := "logs/seen.gz"; Pipeline.lastModified := 99 |};
   {| Pipeline.listedKey := "logs/2.gz"; Pipeline.lastModified := 99 |}].

Definition demoLedger : gmap string Z := {[ "logs/seen.gz" := 99 ]}.

Definition demoCollaborators : Pipeline.Collaborators :=
  {| Pipeline.fetch := fun key => Some ("/tmp/" +:+ key)%string;
     Pipeline.ledgerWritable := fun _ => true |}.

(** Collaborators for which the download of [logs/1.gz] fails. *)
Definition flakyCollaborators : Pipeline.Collaborators :=
  {| Pipeline.fetch := fun key =>
       if String.eqb key "logs/1.gz" then None else Some ("/tmp/" +:+ key)%string;
     Pipeline.ledgerWritable := fun _ => true |}.


(** ** Further observations on main.go *)


(** The value of the last attribute with the given key, [""] without one. *)
Fixpoint lastValue (key : string) (attrs : list (string * string)) : string :=
  match attrs with
  | [] => ""
  | (k, v) :: attrs' =>
    if existsb (fun kv => String.eqb kv.1 key) attrs' then lastValue key attrs'
    else if String.eqb k key then v else ""
  end.

(** The same world with another answer of [os.Stat]. *)
Definition setStat (w : World) (answer : string -> StatResult) : World :=
  {| newSession := newSession w;
     describeLoadBalancers := describeLoadBalancers w;
     describeLoadBalancerAttributes := describeLoadBalancerAttributes w;
     newDynamoDBStater := newDynamoDBStater w;
     osStat := answer;
     arrivals := arrivals w |}.

(** The load balancers for which a downloader goroutine is started, and
    those described by name, in call order. *)
Definition downloaderIds (t : list Event) : list string :=
  omap (fun e => match e with GoDownload _ _ _ id _ => Some id | _ => None end) t.

Definition describedIds (t : list Event) : list string :=
  omap (fun e => match e with DescribeLoadBalancers [id] => Some id | _ => None end) t.

Definition isSetupCall (e : Event) : bool :=
  match e with
  | NewSession | DescribeLoadBalancers _ | DescribeLoadBalancerAttributes _
  | NewDynamoDBStater _ | NewFileStater _ _ | NewHoneycombPublisher _
  | GoDownload _ _ _ _ _ | SignalNotify | GoSignalWaiter => true
  | _ => false
  end.

Definition hasLogs (w : World) (id : string) : bool :=
  bool_decide (accessLogs w id = Some true).

(** A world in which every load balancer has access logs. *)
Definition loggingWorld : World := {|
  newSession := None;
  describeLoadBalancers := fun names =>
    match names with
    | [] => inr [lbWeb; lbApi]
    | n :: _ => inr [{| LoadBalancerName := n; LoadBalancerArn := ("arn:" +:+ n)%string |}]
    end;
  describeLoadBalancerAttributes := fun arn =>
    inr [("access_logs.s3.bucket", "first");
         ("access_logs.s3.enabled", "true");
         ("access_logs.s3.bucket", "second");
         ("access_logs.s3.enabled", "false")];
  newDynamoDBStater := None;
  osStat := fun _ => StatOtherError;
  arrivals := [Download object1 None]
|}.

(** What a call may say about the ledger: the stater is the one selected by
    --highavail, made for the configured state directory and backfill hours. *)
Definition sharesStater (opt : Options) (e : Event) : Prop :=
  match e with
  | NewDynamoDBStater h => HighAvail opt = true /\ h = BackfillHr opt
  | NewFileStater dir h =>
    HighAvail opt = false /\ dir = StateDir opt /\ h = BackfillHr opt
  | NewHoneycombPublisher st => st = staterOf opt
  | GoDownload st _ _ _ h => st = staterOf opt /\ h = BackfillHr opt
  | _ => True
  end.


(** The example world with the race of an interrupt: the signal is
    delivered after the first object, the loop still receives the second,
    then the signal goroutine runs; the third object comes too late. *)
Definition racingWorld : World := {|
  newSession := newSession demoWorld;
  describeLoadBalancers := describeLoadBalancers demoWorld;
  describeLoadBalancerAttributes := describeLoadBalancerAttributes demoWorld;
  newDynamoDBStater := newDynamoDBStater demoWorld;
  osStat := osStat demoWorld;
  arrivals := [Download object1 (Some (LibError "parse error")); SignalDelivered;
               Download object2 None; Interrupt; Download object3 None]
|}.

(** A world whose listing names [web], without access logs, and then a load
    balancer that is gone when it is described by name. *)
Definition goneWorld : World := {|
  newSession := None;
  describeLoadBalancers := fun names =>
    match names with
    | [] => inr [lbWeb; {| LoadBalancerName := "gone"; LoadBalancerArn := "arn:gone" |}]
    | [n] =>
      if String.eqb n "web" then inr [lbWeb]
      else inl (LibError "LoadBalancerNotFound")
    | _ => inl (LibError "ValidationError")
    end;
  describeLoadBalancerAttributes := fun _ => inr [("access_logs.s3.enabled", "false")];
  newDynamoDBStater := None;
  osStat := fun _ => StatOk;
  arrivals := []
|}.

(** ** The monad *)

Lemma bind_Ret {A B} (t : list Event) (a : A) (k : A -> M B) :
  bind (t, Ret a) k = (t ++ trace (k a), outcome (k a)).
Proof. unfold bind, trace, outcome. by destruct (k a). Qed.

Lemma trace_bind {A B} (m : M A) (k : A -> M B) :
  trace (bind m k) =
  trace m ++ match outcome m with Ret a => trace (k a) | _ => [] end.
Proof.
  destruct m as [t [a|c| |]]; cbn; rewrite ?app_nil_r; try done.
  by destruct (k a).
Qed.

Lemma outcome_bind {A B} (m : M A) (k : A -> M B) :
  outcome (bind m k) =
  match outcome m with
  | Ret a => outcome (k a)
  | Exit c => Exit c
  | Panic => Panic
  | Blocked => Blocked
  end.
Proof. destruct m as [t [a|c| |]]; cbn; try done. by destruct (k a). Qed.

Lemma M_eta {A} (m : M A) : m = (trace m, outcome m).
Proof. by destruct m. Qed.

(** ** The attribute scan *)

Lemma scanAttributes_from (attrs : list (string * string)) (e : bool) (b p : string) :
  (fold_left scanAttribute attrs (e, b, p)).1.1 =
  e || existsb (fun kv => String.eqb kv.1 "access_logs.s3.enabled" && String.eqb kv.2 "true") attrs.
Proof.
  revert e b p. induction attrs as [|[k v] attrs IH]; intros e b p; cbn [fold_left existsb].
  - by rewrite orb_false_r.
  - unfold scanAttribute at 2. cbn [fst snd].
    rewrite IH. destruct (String.eqb k _ && String.eqb v _); destruct e; done.
Qed.

Lemma scanAttributes_enabled (attrs : list (string * string)) :
  (scanAttributes attrs).1.1 = true <-> ("access_logs.s3.enabled", "true") ∈ attrs.
Proof.
  unfold scanAttributes. rewrite scanAttributes_from. cbn [orb].
  rewrite existsb_exists. split.
  - intros [[k v] [Hin Hkv]]. cbn in Hkv.
    apply andb_true_iff in Hkv as [Hk Hv].
    apply String.eqb_eq in Hk, Hv. subst. by apply list_elem_of_In.
  - intros Hin. exists ("access_logs.s3.enabled", "true").
    split; [by apply list_elem_of_In | done].
Qed.

(** ** ingestALB *)

Lemma ingestALB_disabled (w : World) (opt : Options) (id : string) (st : Stater) :
  accessLogs w id = Some false ->
  exists arn,
    ingestALB w opt id st =
    ([DescribeLoadBalancers [id]; DescribeLoadBalancerAttributes arn;
      EPrintf accessLogsHelp [VStr id]],
     Ret (Some (ErrorsNew "access logs no enabled"))).
Proof.
  unfold accessLogs, ingestALB. intros H.
  destruct (describeLoadBalancers w [id]) as [err|[|lb lbs]]; try done.
  destruct (describeLoadBalancerAttributes w (LoadBalancerArn lb)) as [err|attrs]; try done.
  exists (LoadBalancerArn lb).
  destruct (scanAttributes attrs) as [[enabled b] p]. cbn in H.
  injection H as ->. reflexivity.
Qed.

Lemma ingestALB_enabled (w : World) (opt : Options) (id : string) (st : Stater) :
  accessLogs w id = Some true ->
  exists arn bucket prefix,
    ingestALB w opt id st =
    ([DescribeLoadBalancers [id]; DescribeLoadBalancerAttributes arn;
      Log InfoLevel [("bucket", VStr bucket); ("lbName", VStr id)]
          (VStr "Access logs are enabled for ALB ♥");
      GoDownload st bucket prefix id (BackfillHr opt)],
     Ret None).
Proof.
  unfold accessLogs, ingestALB. intros H.
  destruct (describeLoadBalancers w [id]) as [err|[|lb lbs]]; try done.
  destruct (describeLoadBalancerAttributes w (LoadBalancerArn lb)) as [err|attrs]; try done.
  exists (LoadBalancerArn lb).
  destruct (scanAttributes attrs) as [[enabled b] p]. cbn in H.
  injection H as ->. by exists b, p.
Qed.

Lemma ingestALB_unanswered (w : World) (opt : Options) (id : string) (st : Stater) :
  accessLogs w id = None ->
  outcome (ingestALB w opt id st) = Exit 1 \/ outcome (ingestALB w opt id st) = Panic.
Proof.
  unfold accessLogs, ingestALB. intros H.
  destruct (describeLoadBalancers w [id]) as [err|[|lb lbs]]; [by left | by right |].
  destruct (describeLoadBalancerAttributes w (LoadBalancerArn lb)) as [err|attrs]; [|done].
  by left.
Qed.

(** C7: for a load balancer whose attributes do not say that access logs are
    enabled, [ingestALB] makes its two describe calls, prints the help text
    that names the load balancer on stderr, and returns the error
    [access logs no enabled]; no downloader goroutine is started. *)
Theorem C7_disabled_logging_fails_fast
  (w : World) (opt : Options) (id : string) (st : Stater)
  (lb : LoadBalancer) (lbs : list LoadBalancer) (attrs : list (string * string))
  (Hfound : describeLoadBalancers w [id] = inr (lb :: lbs))
  (Hattrs : describeLoadBalancerAttributes w (LoadBalancerArn lb) = inr attrs)
  (Hoff : ("access_logs.s3.enabled", "true") ∉ attrs) :
  ingestALB w opt id st =
    ([DescribeLoadBalancers [id]; DescribeLoadBalancerAttributes (LoadBalancerArn lb);
      EPrintf accessLogsHelp [VStr id]],
     Ret (Some (ErrorsNew "access logs no enabled"))) /\
  Forall (fun e => forall b p h, e <> GoDownload st b p id h)
         (trace (ingestALB w opt id st)).
Proof.
  assert (Hscan : (scanAttributes attrs).1.1 = false).
  { destruct ((scanAttributes attrs).1.1) eqn:E; [|done].
    by apply scanAttributes_enabled in E. }
  assert (Hrun : ingestALB w opt id st =
    ([DescribeLoadBalancers [id]; DescribeLoadBalancerAttributes (LoadBalancerArn lb);
      EPrintf accessLogsHelp [VStr id]],
     Ret (Some (ErrorsNew "access logs no enabled")))).
  { unfold ingestALB. rewrite Hfound, Hattrs.
    destruct (scanAttributes attrs) as [[enabled b] p]. cbn in Hscan. by subst. }
  split; [done|]. rewrite Hrun. cbn. repeat constructor; done.
Qed.

(** ** The publisher loop *)

Lemma publishLoop_app {A} (pre inbox : list Arrival) :
  Forall (fun a => isInterrupt a = false) pre ->
  @publishLoop A (pre ++ inbox) =
  (trace (@publishLoop A pre) ++ trace (@publishLoop A inbox),
   outcome (@publishLoop A inbox)).
Proof.
  induction 1 as [|a pre Ha _ IH]; [apply M_eta|].
  destruct a as [d r| |]; [|exact IH|done]. cbn [app publishLoop].
  unfold call, logrusLog, call. rewrite !bind_Ret.
  destruct r as [err|]; unfold ret; rewrite !bind_Ret; rewrite IH; cbn;
    rewrite ?app_nil_r; done.
Qed.

Lemma publishLoop_cons {A} (d : DownloadedObject) (r : option error)
      (inbox : list Arrival) :
  trace (@publishLoop A (Download d r :: inbox)) =
  Publish d :: match r with Some err => [errPublish d err] | None => [] end
            ++ trace (@publishLoop A inbox).
Proof.
  cbn [publishLoop]. unfold call, logrusLog, call. rewrite !bind_Ret.
  destruct r as [err|]; unfold ret; rewrite !bind_Ret; done.
Qed.

Lemma publishLoop_quiet {A} (inbox : list Arrival) :
  Forall (fun a => isInterrupt a = false) inbox ->
  outcome (@publishLoop A inbox) = Blocked /\
  publishAttempts (trace (@publishLoop A inbox)) = downloads inbox.
Proof.
  induction 1 as [|a inbox Ha _ [IHo IHt]]; [done|].
  destruct a as [d r| |]; [|by split|done]. cbn [publishLoop downloads].
  unfold call, logrusLog, call. rewrite !bind_Ret.
  unfold publishAttempts in *.
  destruct r as [err|]; unfold ret; rewrite !bind_Ret; cbn; by rewrite IHt.
Qed.

Lemma downloads_app (pre post : list Arrival) :
  downloads (pre ++ post) = downloads pre ++ downloads post.
Proof.
  induction pre as [|[d r| |] pre IH]; cbn; by rewrite ?IH.
Qed.

Lemma not_elem_Interrupt (inbox : list Arrival) :
  Interrupt ∉ inbox -> Forall (fun a => isInterrupt a = false) inbox.
Proof.
  intros Hno. apply Forall_forall. intros [d r| |] Hin; [done | done | by destruct Hno].
Qed.

(** C6: in the publisher loop, whatever [Publish] answers for an object A, an
    object B received later, with no interrupt in between, is handed to
    [Publish] too, after A; a failure for A is logged at error level with the
    object and the error; and as long as no interrupt arrives the loop
    neither returns nor exits. *)
Theorem C6_publish_failure_isolated
  (pre mid post : list Arrival) (a b : DownloadedObject) (ra rb : option error)
  (Hquiet : Interrupt ∉ pre ++ mid) :
  let run := @publishLoop (option error)
               (pre ++ Download a ra :: mid ++ Download b rb :: post) in
  (exists t1 t2 t3,
      trace run = t1 ++ Publish a :: t2 ++ Publish b :: t3 /\
      forall err, ra = Some err -> head t2 = Some (errPublish a err)) /\
  (Interrupt ∉ post ->
   outcome run = Blocked /\
   publishAttempts (trace run) =
     downloads pre ++ a :: downloads mid ++ b :: downloads post).
Proof.
  intros run. subst run.
  apply not_elem_Interrupt, Forall_app in Hquiet as [Hpre Hmid].
  split.
  - rewrite (publishLoop_app pre) by done.
    change (Download a ra :: mid ++ Download b rb :: post)
      with ([Download a ra] ++ mid ++ Download b rb :: post).
    rewrite (publishLoop_app [Download a ra]) by (by repeat constructor).
    rewrite (publishLoop_app mid) by done.
    cbn [trace fst].
    exists (trace (@publishLoop (option error) pre)),
      (match ra with Some err => [errPublish a err] | None => [] end
       ++ trace (@publishLoop (option error) mid)),
      (match rb with Some err => [errPublish b err] | None => [] end
       ++ trace (@publishLoop (option error) post)).
    split.
    + rewrite !publishLoop_cons. change (trace (@publishLoop (option error) [])) with (@nil Event).
      rewrite app_nil_r. cbn [app]. by rewrite <- !app_assoc.
    + by intros err ->.
  - intros Hpost. apply not_elem_Interrupt in Hpost.
    assert (Hall : Forall (fun x => isInterrupt x = false)
                     (pre ++ Download a ra :: mid ++ Download b rb :: post)).
    { apply Forall_app; split; [done|]. constructor; [done|].
      apply Forall_app; split; [done|]. by constructor. }
    destruct (@publishLoop_quiet (option error) _ Hall) as [Ho Ht].
    split; [done|]. rewrite Ht.
    rewrite downloads_app. cbn [downloads]. by rewrite downloads_app.
Qed.

(** ** The loop over the load balancers *)

Lemma bind_ret_tt (m : M unit) : (m ;; ret tt) = m.
Proof. destruct m as [t [[]|c| |]]; cbn; by rewrite ?app_nil_r. Qed.

Lemma bind_assoc {A B C} (m : M A) (k : A -> M B) (k' : B -> M C) :
  bind (bind m k) k' = bind m (fun a => bind (k a) k').
Proof.
  destruct m as [t [a|c| |]]; cbn; try done.
  destruct (k a) as [t' [b|c| |]]; cbn; try done.
  destruct (k' b) as [t'' o]. by rewrite app_assoc.
Qed.

Lemma ingestAll_cons (w : World) (opt : Options) (explicit names : list string)
      (id : string) (st : Stater) :
  ingestAll ingestALB w opt explicit (id :: names) st =
  (ingestAll ingestALB w opt explicit [id] st ;;
   ingestAll ingestALB w opt explicit names st).
Proof.
  unfold ingestAll. cbn [forEach]. by rewrite bind_ret_tt.
Qed.

Lemma ingestOne_enabled (w : World) (opt : Options) (explicit : list string)
      (id : string) (st : Stater) :
  accessLogs w id = Some true ->
  exists arn bucket prefix,
    ingestAll ingestALB w opt explicit [id] st =
    ([attempt id; DescribeLoadBalancers [id]; DescribeLoadBalancerAttributes arn;
      Log InfoLevel [("bucket", VStr bucket); ("lbName", VStr id)]
          (VStr "Access logs are enabled for ALB ♥");
      GoDownload st bucket prefix id (BackfillHr opt)], Ret tt).
Proof.
  intros H. destruct (ingestALB_enabled w opt id st H) as (arn & b & p & Hrun).
  exists arn, b, p. unfold ingestAll. cbn [forEach]. rewrite bind_ret_tt, Hrun.
  reflexivity.
Qed.

Lemma ingestOne_disabled_auto (w : World) (opt : Options) (id : string) (st : Stater) :
  accessLogs w id = Some false ->
  exists arn,
    ingestAll ingestALB w opt [] [id] st =
    ([attempt id; DescribeLoadBalancers [id]; DescribeLoadBalancerAttributes arn;
      EPrintf accessLogsHelp [VStr id]; errIngest id], Ret tt).
Proof.
  intros H. destruct (ingestALB_disabled w opt id st H) as (arn & Hrun).
  exists arn. unfold ingestAll. cbn [forEach]. rewrite bind_ret_tt, Hrun.
  reflexivity.
Qed.

Lemma ingestOne_disabled_explicit (w : World) (opt : Options) (explicit : list string)
      (id : string) (st : Stater) :
  explicit <> [] ->
  accessLogs w id = Some false ->
  exists arn,
    ingestAll ingestALB w opt explicit [id] st =
    ([attempt id; DescribeLoadBalancers [id]; DescribeLoadBalancerAttributes arn;
      EPrintf accessLogsHelp [VStr id]; fatalResource], Exit 1).
Proof.
  intros Hne H. destruct (ingestALB_disabled w opt id st H) as (arn & Hrun).
  exists arn. unfold ingestAll. cbn [forEach]. rewrite bind_ret_tt, Hrun.
  destruct explicit as [|x explicit]; [done|]. reflexivity.
Qed.

Lemma ingestOne_unanswered (w : World) (opt : Options) (explicit : list string)
      (id : string) (st : Stater) :
  accessLogs w id = None ->
  outcome (ingestAll ingestALB w opt explicit [id] st) = Exit 1 \/
  outcome (ingestAll ingestALB w opt explicit [id] st) = Panic.
Proof.
  intros H. pose proof (ingestALB_unanswered w opt id st H) as Ho.
  unfold ingestAll. cbn [forEach]. rewrite bind_ret_tt.
  unfold logrusLog, call. rewrite bind_Ret, outcome_bind. cbn [outcome snd].
  destruct Ho as [-> | ->]; auto.
Qed.

Lemma setupCall_mono (w : World) (explicit names names' : list string) (e : Event) :
  names ⊆ names' -> setupCall w explicit names e -> setupCall w explicit names' e.
Proof.
  intros Hsub (H1 & H2 & H3 & H4 & H5 & H6 & H7 & H8). repeat split; try done.
  - intros q ->. apply Hsub. by apply H5.
  - apply Hsub. by eapply H6.
  - by eapply H6.
  - by eapply H7.
  - apply Hsub. by eapply H7.
  - by eapply H7.
Qed.

Ltac setup_calls :=
  repeat (apply Forall_cons_2 || apply Forall_nil_2);
  unfold setupCall, errIngest, fatalResource, attempt;
  repeat split; try done; intros; simplify_eq;
  try done; try apply list_elem_of_here.

Lemma ingestOne_calls (w : World) (opt : Options) (explicit : list string)
      (id : string) (st : Stater) :
  Forall (setupCall w explicit [id])
         (trace (ingestAll ingestALB w opt explicit [id] st)) /\
  (outcome (ingestAll ingestALB w opt explicit [id] st) = Ret tt \/
   outcome (ingestAll ingestALB w opt explicit [id] st) = Exit 1 \/
   outcome (ingestAll ingestALB w opt explicit [id] st) = Panic).
Proof.
  destruct (accessLogs w id) as [[|]|] eqn:Hlogs.
  - destruct (ingestOne_enabled w opt explicit id st Hlogs) as (arn & b & p & ->).
    split; [|by left]. cbn [trace fst]. setup_calls.
  - destruct explicit as [|x explicit].
    + destruct (ingestOne_disabled_auto w opt id st Hlogs) as (arn & ->).
      split; [|by left]. cbn [trace fst]. setup_calls.
    + destruct (ingestOne_disabled_explicit w opt (x :: explicit) id st) as (arn & ->);
        [done..|].
      split; [|auto]. cbn [trace fst]. setup_calls.
  - revert Hlogs. unfold accessLogs, ingestAll. cbn [forEach]. rewrite bind_ret_tt.
    unfold ingestALB, logrusLog, logrusFatal, call, osExit, panic, ret.
    destruct (describeLoadBalancers w [id]) as [err|[|lb lbs]];
      [intros _; cbn; split; [setup_calls | auto]..|].
    destruct (describeLoadBalancerAttributes w (LoadBalancerArn lb)) as [err|attrs];
      [intros _; cbn; split; [setup_calls | auto] | done].
Qed.

Lemma ingestAll_calls (w : World) (opt : Options) (explicit names : list string)
      (st : Stater) :
  Forall (setupCall w explicit names)
         (trace (ingestAll ingestALB w opt explicit names st)) /\
  (outcome (ingestAll ingestALB w opt explicit names st) = Ret tt \/
   outcome (ingestAll ingestALB w opt explicit names st) = Exit 1 \/
   outcome (ingestAll ingestALB w opt explicit names st) = Panic).
Proof.
  induction names as [|id names [IHt IHo]]; [split; [constructor | by left]|].
  rewrite ingestAll_cons, trace_bind, outcome_bind.
  destruct (ingestOne_calls w opt explicit id st) as [Ht Ho].
  split.
  - apply Forall_app. split.
    + eapply Forall_impl; [exact Ht|]. intros e. apply setupCall_mono.
      intros x Hx. apply list_elem_of_singleton in Hx as ->. apply list_elem_of_here.
    + destruct (outcome (ingestAll ingestALB w opt explicit [id] st)); try constructor.
      eapply Forall_impl; [exact IHt|]. intros e. apply setupCall_mono.
      intros x Hx. by apply list_elem_of_further.
  - destruct Ho as [-> | [-> | ->]]; auto.
Qed.

Lemma ingestAll_app (w : World) (opt : Options) (explicit pre post : list string)
      (st : Stater) :
  ingestAll ingestALB w opt explicit (pre ++ post) st =
  (ingestAll ingestALB w opt explicit pre st ;;
   ingestAll ingestALB w opt explicit post st).
Proof.
  induction pre as [|id pre IH].
  - cbn [app]. unfold ingestAll at 2. cbn [forEach]. unfold ret.
    rewrite bind_Ret. apply M_eta.
  - cbn [app]. rewrite ingestAll_cons, IH, (ingestAll_cons _ _ _ pre).
    by rewrite bind_assoc.
Qed.

Lemma ingestAll_enabled (w : World) (opt : Options) (explicit names : list string)
      (st : Stater) :
  Forall (fun n => accessLogs w n = Some true) names ->
  outcome (ingestAll ingestALB w opt explicit names st) = Ret tt.
Proof.
  induction 1 as [|id names Hid _ IH]; [done|].
  rewrite ingestAll_cons, outcome_bind.
  destruct (ingestOne_enabled w opt explicit id st Hid) as (arn & b & p & ->).
  exact IH.
Qed.

(** Auto-discovery: when every load balancer answers the describe calls,
    the loop gets through all of them. *)
Lemma ingestAll_auto (w : World) (opt : Options) (names : list string) (st : Stater) :
  Forall (fun n => accessLogs w n <> None) names ->
  outcome (ingestAll ingestALB w opt [] names st) = Ret tt /\
  forall id, id ∈ names ->
    DescribeLoadBalancers [id] ∈ trace (ingestAll ingestALB w opt [] names st) /\
    (accessLogs w id = Some false ->
     errIngest id ∈ trace (ingestAll ingestALB w opt [] names st)) /\
    (accessLogs w id = Some true ->
     exists b p, GoDownload st b p id (BackfillHr opt)
                   ∈ trace (ingestAll ingestALB w opt [] names st)).
Proof.
  induction 1 as [|n names Hn _ [IHo IHt]]; [split; [done|]; by intros id ?%elem_of_nil|].
  rewrite ingestAll_cons, outcome_bind, trace_bind.
  assert (Hone : outcome (ingestAll ingestALB w opt [] [n] st) = Ret tt /\
                 DescribeLoadBalancers [n] ∈ trace (ingestAll ingestALB w opt [] [n] st) /\
                 (accessLogs w n = Some false ->
                  errIngest n ∈ trace (ingestAll ingestALB w opt [] [n] st)) /\
                 (accessLogs w n = Some true ->
                  exists b p, GoDownload st b p n (BackfillHr opt)
                                ∈ trace (ingestAll ingestALB w opt [] [n] st))).
  { destruct (accessLogs w n) as [[|]|] eqn:Hlogs; [| |done].
    - destruct (ingestOne_enabled w opt [] n st Hlogs) as (arn & b & p & ->).
      cbn [trace outcome fst snd]. repeat split; [|done|].
      + apply list_elem_of_further, list_elem_of_here.
      + intros _. exists b, p. do 4 apply list_elem_of_further. apply list_elem_of_here.
    - destruct (ingestOne_disabled_auto w opt n st Hlogs) as (arn & ->).
      cbn [trace outcome fst snd]. repeat split; [| |done].
      + apply list_elem_of_further, list_elem_of_here.
      + intros _. do 4 apply list_elem_of_further. apply list_elem_of_here. }
  destruct Hone as (Ho & Hd & Hf & Ht). rewrite Ho. split; [done|].
  intros id Hid. apply elem_of_cons in Hid as [-> | Hid].
  - repeat split.
    + apply elem_of_app. by left.
    + intros Hl. apply elem_of_app. left. by apply Hf.
    + intros Hl. destruct (Ht Hl) as (b & p & Hgo). exists b, p.
      apply elem_of_app. by left.
  - destruct (IHt id Hid) as (Hd' & Hf' & Ht'). repeat split.
    + apply elem_of_app. by right.
    + intros Hl. apply elem_of_app. right. by apply Hf'.
    + intros Hl. destruct (Ht' Hl) as (b & p & Hgo). exists b, p.
      apply elem_of_app. by right.
Qed.

(** ** The ingest subcommand *)

Lemma backfill_check (h : Z) :
  (h <? 1) || (h >? 168) = false <-> 1 <= h <= 168.
Proof.
  rewrite orb_false_iff, Z.ltb_ge, Z.gtb_ltb, Z.ltb_ge. lia.
Qed.

Lemma writeKey_check (k : string) : String.eqb k "" = false <-> k <> "".
Proof. apply String.eqb_neq. Qed.

Lemma cmdALB_ingest_started (w : World) (opt : Options) (explicit : list string)
      (lbs : list LoadBalancer) :
  newSession w = None ->
  describeLoadBalancers w [] = inr lbs ->
  WriteKey opt <> "" ->
  1 <= BackfillHr opt <= 168 ->
  (HighAvail opt = true -> newDynamoDBStater w = None) ->
  cmdALB ingestALB w opt ("ingest" :: explicit) =
  (((startCalls opt, Ret tt) : M unit) ;;
   ingestAll ingestALB w opt explicit (targets lbs explicit) (staterOf opt) ;;
   call SignalNotify ;;
   call GoSignalWaiter ;;
   publishLoop (arrivals w)).
Proof.
  intros Hsess Hlist Hkey Hh Hdyn.
  apply writeKey_check in Hkey. apply backfill_check in Hh.
  unfold cmdALB. rewrite Hsess, Hlist.
  change (String.eqb "ingest" "ls" || String.eqb "ingest" "list") with false.
  change (String.eqb "ingest" "ingest") with true. cbv iota.
  rewrite Hkey, Hh. unfold when, newStater, startCalls, staterOf, targets.
  destruct (HighAvail opt).
  - rewrite Hdyn by done. unfold call, logrusLog, call, ret.
    rewrite !bind_Ret. cbn [trace outcome fst snd app]. rewrite !bind_Ret.
    cbn [trace outcome fst snd app]. reflexivity.
  - unfold call, logrusLog, call, ret.
    rewrite !bind_Ret. cbn [trace outcome fst snd app]. rewrite !bind_Ret.
    cbn [trace outcome fst snd app]. reflexivity.
Qed.

Lemma fixDataset_fields (opt : Options) :
  StateDir (fixDataset opt) = StateDir opt /\
  WriteKey (fixDataset opt) = WriteKey opt /\
  BackfillHr (fixDataset opt) = BackfillHr opt /\
  HighAvail (fixDataset opt) = HighAvail opt /\
  Version (fixDataset opt) = Version opt /\
  Debug (fixDataset opt) = Debug opt.
Proof. unfold fixDataset. by destruct (String.eqb (Dataset opt) _). Qed.

Lemma forEach_println (lbs : list LoadBalancer) :
  forEach lbs (fun lb => call (Println [VStr (LoadBalancerName lb)])) =
  (map (fun lb => Println [VStr (LoadBalancerName lb)]) lbs, Ret tt).
Proof.
  induction lbs as [|lb lbs IH]; [done|].
  cbn [forEach map]. rewrite IH. reflexivity.
Qed.

(** [main] up to the call of [cmdALB]. *)
Lemma main_reaches_cmdALB (w : World) (inv : Invocation) (opt : Options)
      (sub : string) (rest : list string) :
  parsed inv = inr (opt, sub :: rest) ->
  osStat w (StateDir opt) <> StatNotExist ->
  Version opt = false ->
  honeyalb w inv =
  (((mainPrelude inv opt, Ret tt) : M unit) ;;
   err <- cmdALB ingestALB w (fixDataset opt) (sub :: rest) ;;
   match err with
   | Some e => call (EPrintln [VStr "Error: "; VErr e]) ;; osExit 1
   | None => ret tt
   end).
Proof.
  intros Hp Hstat Hver. unfold honeyalb, main. rewrite Hp.
  destruct (fixDataset_fields opt) as (-> & _ & _ & _ & -> & _).
  rewrite Hver. unfold mainPrelude, when, logrusLog, call, ret.
  destruct (Debug opt), (osStat w (StateDir opt)); try done;
    rewrite !bind_Ret; cbn [trace outcome fst snd app]; rewrite ?bind_Ret;
    cbn [trace outcome fst snd app]; reflexivity.
Qed.

Lemma main_missing_state_dir (w : World) (inv : Invocation) (opt : Options)
      (args : list string) :
  parsed inv = inr (opt, args) ->
  osStat w (StateDir opt) = StatNotExist ->
  honeyalb w inv = (mainPrelude inv opt ++ [fatalStateDir opt], Exit 1).
Proof.
  intros Hparsed Hstat. unfold honeyalb, main. rewrite Hparsed.
  destruct (fixDataset_fields opt) as (-> & _).
  rewrite Hstat. unfold mainPrelude, fatalStateDir.
  by destruct (Debug opt).
Qed.

(** C9: when the state directory does not exist, [main] ends with the fatal
    log entry about the directory and exit status 1 right after the stat
    call: whatever the flags (high availability, version) and whatever the
    arguments (ls, ingest, none), nothing is printed and [cmdALB] is not
    called. *)
Theorem C9_missing_state_dir_is_fatal
  (w : World) (inv : Invocation) (opt : Options) (args : list string)
  (Hparsed : parsed inv = inr (opt, args))
  (Hstat : osStat w (StateDir opt) = StatNotExist) :
  honeyalb w inv = (mainPrelude inv opt ++ [fatalStateDir opt], Exit 1) /\
  exitStatus (outcome (honeyalb w inv)) = Some 1.
Proof.
  pose proof (main_missing_state_dir w inv opt args Hparsed Hstat) as Hrun.
  split; [done|]. by rewrite Hrun.
Qed.

(** C10: [cmdALB] lists the load balancers before it looks at the
    subcommand.  When the listing fails the process prints that error and
    exits with status 1, for every subcommand; when it succeeds, a
    subcommand other than ls, list and ingest is reported as not recognized,
    with exit status 1. *)
Theorem C10_listing_precedes_subcommand
  (w : World) (inv : Invocation) (opt : Options) (sub : string) (rest : list string)
  (Hparsed : parsed inv = inr (opt, sub :: rest))
  (Hstat : osStat w (StateDir opt) <> StatNotExist)
  (Hver : Version opt = false)
  (Hsess : newSession w = None) :
  match describeLoadBalancers w [] with
  | inl err =>
    cmdALB ingestALB w (fixDataset opt) (sub :: rest) =
      ([NewSession; DescribeLoadBalancers []], Ret (Some err)) /\
    honeyalb w inv =
      (mainPrelude inv opt ++
       [NewSession; DescribeLoadBalancers []; EPrintln [VStr "Error: "; VErr err]],
       Exit 1)
  | inr _ =>
    recognized sub = false ->
    cmdALB ingestALB w (fixDataset opt) (sub :: rest) =
      ([NewSession; DescribeLoadBalancers []],
       Ret (Some (Errorf "Subcommand %q not recognized" sub))) /\
    honeyalb w inv =
      (mainPrelude inv opt ++
       [NewSession; DescribeLoadBalancers [];
        EPrintln [VStr "Error: "; VErr (Errorf "Subcommand %q not recognized" sub)]],
       Exit 1)
  end.
Proof.
  pose proof (main_reaches_cmdALB w inv opt sub rest Hparsed Hstat Hver) as Hmain.
  destruct (describeLoadBalancers w []) as [err|lbs] eqn:Hlist.
  - assert (Hcmd : cmdALB ingestALB w (fixDataset opt) (sub :: rest) =
                   ([NewSession; DescribeLoadBalancers []], Ret (Some err))).
    { unfold cmdALB. by rewrite Hsess, Hlist. }
    split; [done|]. rewrite Hmain, Hcmd. by rewrite bind_Ret.
  - intros Hsub. unfold recognized in Hsub.
    apply orb_false_iff in Hsub as [Hls Hingest].
    assert (Hcmd : cmdALB ingestALB w (fixDataset opt) (sub :: rest) =
                   ([NewSession; DescribeLoadBalancers []],
                    Ret (Some (Errorf "Subcommand %q not recognized" sub)))).
    { unfold cmdALB. by rewrite Hsess, Hlist, Hls, Hingest. }
    split; [done|]. rewrite Hmain, Hcmd. by rewrite bind_Ret.
Qed.

(** C8: with an empty write key the ingest subcommand makes no call that
    creates a ledger or concerns a load balancer; once the session and the
    listing have succeeded it ends with the fatal entry that tells where to
    find the write key, exit status 1. *)
Theorem C8_missing_write_key_is_fatal
  (w : World) (opt : Options) (explicit : list string)
  (Hkey : WriteKey opt = "") :
  let run := cmdALB ingestALB w opt ("ingest" :: explicit) in
  Forall (fun e => isLedgerCall e = false /\ isIngestCall e = false) (trace run) /\
  (newSession w = None ->
   forall lbs, describeLoadBalancers w [] = inr lbs ->
   run = ([NewSession; DescribeLoadBalancers []; fatalWriteKey], Exit 1)).
Proof.
  intros run. subst run. unfold cmdALB.
  change (String.eqb "ingest" "ls" || String.eqb "ingest" "list") with false.
  change (String.eqb "ingest" "ingest") with true. cbv iota.
  rewrite Hkey. split.
  - destruct (newSession w); [cbn; by repeat constructor|].
    destruct (describeLoadBalancers w []); cbn; by repeat constructor.
  - by intros -> lbs ->.
Qed.

(** C5: in the ingest subcommand, with a session, a listing and a write key,
    a ledger is constructed exactly when the backfill hours are between 1
    and 168, and calls that concern load balancers or publishing are made
    only then; outside that range the run ends at once with the fatal
    entry about --backfill, exit status 1. *)
Theorem C5_backfill_window_gate
  (w : World) (opt : Options) (explicit : list string) (lbs : list LoadBalancer)
  (Hsess : newSession w = None)
  (Hlist : describeLoadBalancers w [] = inr lbs)
  (Hkey : WriteKey opt <> "") :
  let run := cmdALB ingestALB w opt ("ingest" :: explicit) in
  (Exists (fun e => isLedgerCall e = true) (trace run) <-> 1 <= BackfillHr opt <= 168) /\
  (Exists (fun e => isIngestCall e = true) (trace run) -> 1 <= BackfillHr opt <= 168) /\
  (~ 1 <= BackfillHr opt <= 168 ->
   run = ([NewSession; DescribeLoadBalancers []; fatalBackfill opt], Exit 1)).
Proof.
  intros run.
  assert (Hout : ~ 1 <= BackfillHr opt <= 168 ->
                 run = ([NewSession; DescribeLoadBalancers []; fatalBackfill opt], Exit 1)).
  { intros Hh. rewrite <- backfill_check in Hh. apply not_false_is_true in Hh.
    apply writeKey_check in Hkey. subst run. unfold cmdALB.
    rewrite Hsess, Hlist.
    change (String.eqb "ingest" "ls" || String.eqb "ingest" "list") with false.
    change (String.eqb "ingest" "ingest") with true. cbv iota.
    by rewrite Hkey, Hh. }
  assert (Hin : 1 <= BackfillHr opt <= 168 ->
                Exists (fun e => isLedgerCall e = true) (trace run)).
  { intros Hh. apply backfill_check in Hh.
    apply writeKey_check in Hkey. subst run. unfold cmdALB.
    rewrite Hsess, Hlist.
    change (String.eqb "ingest" "ls" || String.eqb "ingest" "list") with false.
    change (String.eqb "ingest" "ingest") with true. cbv iota.
    rewrite Hkey, Hh. unfold when, newStater, call, ret.
    rewrite !bind_Ret. cbn [trace fst app]. rewrite trace_bind.
    apply Exists_cons_tl, Exists_cons_tl, Exists_app. left.
    destruct (HighAvail opt); cbn [trace fst app]; by apply Exists_cons_hd. }
  destruct (decide (1 <= BackfillHr opt <= 168)) as [Hh|Hh].
  - split; [split; [done | exact Hin] | split; [done | by intros []]].
  - rewrite (Hout Hh). split; [split | split]; try done.
    + intros Hex. apply Exists_exists in Hex as (e & He & Hl).
      repeat (apply elem_of_cons in He as [-> | He]; [done|]).
      by apply elem_of_nil in He.
    + intros Hex. apply Exists_exists in Hex as (e & He & Hl).
      repeat (apply elem_of_cons in He as [-> | He]; [done|]).
      by apply elem_of_nil in He.
Qed.

Ltac all_calls :=
  cbn [trace outcome fst snd app bind call logrusFatal logrusLog osExit ret panic];
  repeat (apply Forall_cons_2 || apply Forall_nil_2); done.

(** C4: with --highavail, when the DynamoDB stater cannot be made, no run of
    [cmdALB] creates the file stater or makes a call that concerns a load
    balancer or publishing; the ingest subcommand, once the session, the
    listing, the write key and the backfill hours are in order, asks for the
    DynamoDB stater and ends with the fatal entry that names the table and
    points to the README, exit status 1. *)
Theorem C4_highavail_without_table_is_fatal
  (w : World) (opt : Options) (err : error)
  (Hha : HighAvail opt = true)
  (Hdyn : newDynamoDBStater w = Some err) :
  (forall args,
     Forall (fun e => isFileStaterCall e = false /\ isIngestCall e = false)
            (trace (cmdALB ingestALB w opt args))) /\
  (forall explicit lbs,
     newSession w = None ->
     describeLoadBalancers w [] = inr lbs ->
     WriteKey opt <> "" ->
     1 <= BackfillHr opt <= 168 ->
     cmdALB ingestALB w opt ("ingest" :: explicit) =
       ([NewSession; DescribeLoadBalancers [];
         NewDynamoDBStater (BackfillHr opt); fatalDynamo], Exit 1)).
Proof.
  split.
  - intros args. unfold cmdALB.
    destruct (newSession w); [all_calls|].
    destruct (describeLoadBalancers w []) as [e|lbs]; [all_calls|].
    destruct args as [|sub rest]; [all_calls|].
    destruct (String.eqb sub "ls" || String.eqb sub "list").
    { rewrite forEach_println. cbn [trace outcome fst snd app bind call ret].
      rewrite app_nil_r.
      repeat apply Forall_cons_2; try done.
      apply Forall_forall. intros e He.
      apply list_elem_of_fmap in He as (lb & -> & _). done. }
    destruct (String.eqb sub "ingest"); [|all_calls].
    unfold when, newStater. rewrite Hha, Hdyn.
    destruct (String.eqb (WriteKey opt) ""); [all_calls|].
    destruct ((BackfillHr opt <? 1) || (BackfillHr opt >? 168)); all_calls.
  - intros explicit lbs Hsess Hlist Hkey Hh.
    apply writeKey_check in Hkey. apply backfill_check in Hh.
    unfold cmdALB. rewrite Hsess, Hlist.
    change (String.eqb "ingest" "ls" || String.eqb "ingest" "list") with false.
    change (String.eqb "ingest" "ingest") with true. cbv iota.
    rewrite Hkey, Hh. unfold when, newStater. by rewrite Hha, Hdyn.
Qed.

(** ** Interrupts *)

Lemma publishLoop_spec {A} (inbox : list Arrival) :
  @publishLoop A inbox =
  (loopCalls inbox, if existsb isInterrupt inbox then Exit 1 else Blocked).
Proof.
  induction inbox as [|[d r| |] inbox IH]; [done| |exact IH|done].
  cbn [publishLoop loopCalls existsb isInterrupt orb]. rewrite IH.
  unfold call, logrusLog, call, ret. rewrite !bind_Ret.
  destruct r; rewrite !bind_Ret; reflexivity.
Qed.

Lemma loopCalls_attempts (inbox : list Arrival) :
  publishAttempts (loopCalls inbox) = downloads (beforeInterrupt inbox).
Proof.
  unfold publishAttempts.
  induction inbox as [|[d [err|]| |] inbox IH]; cbn; by rewrite ?IH.
Qed.

Lemma existsb_isInterrupt (inbox : list Arrival) :
  Interrupt ∈ inbox -> existsb isInterrupt inbox = true.
Proof.
  intros Hin. apply existsb_exists. exists Interrupt.
  split; [by apply list_elem_of_In | done].
Qed.

Lemma setupCalls_quiet (w : World) (explicit names : list string) (t : list Event) :
  Forall (setupCall w explicit names) t -> publishAttempts t = [] /\ SignalNotify ∉ t.
Proof.
  induction 1 as [|e t (He & Hs & _) _ [IHp IHs]]; [split; [done | apply not_elem_of_nil]|].
  split.
  - unfold publishAttempts in *. cbn [omap] in *.
    destruct e; try done.
  - apply not_elem_of_cons. split; [by intros <- | done].
Qed.

(** How a run of the ingest subcommand can go: either it gets to the
    publisher loop, or it ends before, without any publish attempt. *)
Lemma cmdALB_ingest_cases (w : World) (opt : Options) (explicit : list string) :
  let run := cmdALB ingestALB w opt ("ingest" :: explicit) in
  (exists pre,
      run = (pre ++ SignalNotify :: GoSignalWaiter :: loopCalls (arrivals w),
             if existsb isInterrupt (arrivals w) then Exit 1 else Blocked) /\
      publishAttempts pre = [] /\ SignalNotify ∉ pre) \/
  (publishAttempts (trace run) = [] /\ (SignalNotify ∉ trace run) /\
   (outcome run = Exit 1 \/ outcome run = Panic \/
    exists err, outcome run = Ret (Some err))).
Proof.
  intros run.
  assert (Hno : forall t : list Event,
             Forall (fun e => publishAttempts [e] = [] /\ e <> SignalNotify) t ->
             publishAttempts t = [] /\ SignalNotify ∉ t).
  { induction 1 as [|e t [He Hs] _ [IHp IHs]]; [split; [done | apply not_elem_of_nil]|].
    split; [|apply not_elem_of_cons; split; [by intros <- | done]].
    unfold publishAttempts in *. cbn [omap] in *. by destruct e. }
  destruct (newSession w) as [e|] eqn:Hsess.
  { right. subst run. unfold cmdALB. rewrite Hsess. cbn.
    split; [done|]. split; [|auto]. apply Hno. by repeat constructor. }
  destruct (describeLoadBalancers w []) as [e|lbs] eqn:Hlist.
  { right. subst run. unfold cmdALB. rewrite Hsess, Hlist. cbn.
    split; [done|]. split; [|eauto]. apply Hno. by repeat constructor. }
  destruct (String.eqb (WriteKey opt) "") eqn:Hkey.
  { right. subst run. unfold cmdALB. rewrite Hsess, Hlist.
    change (String.eqb "ingest" "ls" || String.eqb "ingest" "list") with false.
    change (String.eqb "ingest" "ingest") with true. cbv iota. rewrite Hkey. cbn.
    split; [done|]. split; [|auto]. apply Hno. by repeat constructor. }
  destruct ((BackfillHr opt <? 1) || (BackfillHr opt >? 168)) eqn:Hh.
  { right. subst run. unfold cmdALB. rewrite Hsess, Hlist.
    change (String.eqb "ingest" "ls" || String.eqb "ingest" "list") with false.
    change (String.eqb "ingest" "ingest") with true. cbv iota. rewrite Hkey, Hh. cbn.
    split; [done|]. split; [|auto]. apply Hno. by repeat constructor. }
  destruct (HighAvail opt) eqn:Hha; [destruct (newDynamoDBStater w) as [e|] eqn:Hdyn|].
  { right. subst run. unfold cmdALB. rewrite Hsess, Hlist.
    change (String.eqb "ingest" "ls" || String.eqb "ingest" "list") with false.
    change (String.eqb "ingest" "ingest") with true. cbv iota. rewrite Hkey, Hh.
    unfold when, newStater. rewrite Hha, Hdyn. cbn.
    split; [done|]. split; [|auto]. apply Hno. by repeat constructor. }
  all: apply writeKey_check in Hkey; apply backfill_check in Hh.
  all: subst run; rewrite (cmdALB_ingest_started w opt explicit lbs) by first [done | congruence].
  all: rewrite publishLoop_spec.
  all: destruct (ingestAll_calls w opt explicit (targets lbs explicit) (staterOf opt))
         as [Hcalls Hout].
  all: apply setupCalls_quiet in Hcalls as [Hpub Hsig].
  all: assert (Hstart : publishAttempts (startCalls opt) = [] /\ SignalNotify ∉ startCalls opt)
         by (apply Hno; unfold startCalls; rewrite Hha; by repeat constructor).
  all: destruct Hstart as [Hpub0 Hsig0].
  all: rewrite (M_eta (ingestAll ingestALB w opt explicit (targets lbs explicit) (staterOf opt))).
  all: destruct Hout as [-> | [-> | ->]].
  all: unfold call; rewrite ?bind_Ret; cbn [bind trace outcome fst snd app].
  all: try (right; rewrite ?app_nil_r; split;
            [unfold publishAttempts in *; by rewrite omap_app, Hpub0, Hpub
            |split; [by rewrite not_elem_of_app | auto]]).
  all: left; exists (startCalls opt ++
                 trace (ingestAll ingestALB w opt explicit (targets lbs explicit) (staterOf opt))).
  all: split; [by rewrite <- app_assoc|].
  all: split; [unfold publishAttempts in *; by rewrite omap_app, Hpub0, Hpub
              |by rewrite not_elem_of_app].
Qed.

Lemma mainPrelude_quiet (inv : Invocation) (opt : Options) :
  publishAttempts (mainPrelude inv opt) = [] /\ SignalNotify ∉ mainPrelude inv opt.
Proof.
  unfold mainPrelude. destruct (Debug opt); cbn; (split; [done|]);
    repeat (apply not_elem_of_cons; split; [done|]); apply not_elem_of_nil.
Qed.

(** The same for the whole process, started with the ingest subcommand. *)
Lemma honeyalb_ingest_cases (w : World) (inv : Invocation) (opt : Options)
      (explicit : list string) :
  parsed inv = inr (opt, "ingest" :: explicit) ->
  Version opt = false ->
  let run := honeyalb w inv in
  (exists pre,
      run = (pre ++ SignalNotify :: GoSignalWaiter :: loopCalls (arrivals w),
             if existsb isInterrupt (arrivals w) then Exit 1 else Blocked) /\
      publishAttempts pre = [] /\ SignalNotify ∉ pre) \/
  (publishAttempts (trace run) = [] /\ (SignalNotify ∉ trace run) /\
   (outcome run = Exit 1 \/ outcome run = Panic)).
Proof.
  intros Hparsed Hver run. subst run.
  destruct (mainPrelude_quiet inv opt) as [Hpub0 Hsig0].
  destruct (decide (osStat w (StateDir opt) = StatNotExist)) as [Hstat|Hstat].
  { right. rewrite (main_missing_state_dir w inv opt _ Hparsed Hstat).
    cbn [trace outcome fst snd]. split; [|split; [|auto]].
    - unfold publishAttempts in *. by rewrite omap_app, Hpub0.
    - rewrite not_elem_of_app. split; [done|].
      apply not_elem_of_cons; split; [done | apply not_elem_of_nil]. }
  rewrite (main_reaches_cmdALB w inv opt _ _ Hparsed Hstat Hver).
  destruct (cmdALB_ingest_cases w (fixDataset opt) explicit)
    as [(pre & Hrun & Hpub & Hsig) | (Hpub & Hsig & Hout)].
  - left. exists (mainPrelude inv opt ++ pre). rewrite Hrun, bind_Ret.
    rewrite <- app_assoc. split; [|split].
    + by destruct (existsb isInterrupt (arrivals w)); cbn; rewrite ?app_nil_r.
    + unfold publishAttempts in *. by rewrite omap_app, Hpub0, Hpub.
    + by rewrite not_elem_of_app.
  - right. rewrite bind_Ret.
    rewrite (M_eta (cmdALB ingestALB w (fixDataset opt) ("ingest" :: explicit))).
    destruct Hout as [-> | [-> | [err ->]]]; cbn [bind trace outcome fst snd app call osExit];
      rewrite ?app_nil_r.
    + split; [|split; [|auto]].
      * unfold publishAttempts in *. by rewrite omap_app, Hpub0, Hpub.
      * by rewrite not_elem_of_app.
    + split; [|split; [|auto]].
      * unfold publishAttempts in *. by rewrite omap_app, Hpub0, Hpub.
      * by rewrite not_elem_of_app.
    + split; [|split; [|auto]].
      * unfold publishAttempts in *. rewrite !omap_app, Hpub0, Hpub. done.
      * rewrite !not_elem_of_app. split; [done|]. split; [done|].
        apply not_elem_of_cons; split; [done | apply not_elem_of_nil].
Qed.

(** C3 as worded fails: in the example world the ingest run installs the
    signal handler, receives the interrupt, and ends with status 1. *)
Lemma C3_interrupt_exit_status_counterexample :
  ~ interruptExitsZero demoWorld (demoInvocation demoOptions ["ingest"]).
Proof.
  intros H.
  assert (H1 : Interrupt ∈ arrivals demoWorld).
  { cbn. do 2 apply list_elem_of_further. apply list_elem_of_here. }
  assert (H2 : SignalNotify ∈ trace (honeyalb demoWorld (demoInvocation demoOptions ["ingest"]))).
  { apply (bool_decide_unpack _). vm_compute. exact I. }
  specialize (H H1 H2). vm_compute in H. discriminate.
Qed.

Lemma loopCalls_fatal (inbox : list Arrival) :
  Interrupt ∈ inbox -> fatalInterrupt ∈ loopCalls inbox.
Proof.
  induction inbox as [|[d r| |] inbox IH]; intros Hin.
  - by apply elem_of_nil in Hin.
  - apply elem_of_cons in Hin as [|Hin]; [done|]. cbn [loopCalls].
    apply list_elem_of_further, elem_of_app. right. by apply IH.
  - apply elem_of_cons in Hin as [|Hin]; [done|]. by apply IH.
  - apply list_elem_of_here.
Qed.

Lemma beforeInterrupt_app (pre post : list Arrival) :
  Forall (fun a => isInterrupt a = false) pre ->
  beforeInterrupt (pre ++ Interrupt :: post) = pre.
Proof.
  induction 1 as [|[d r| |] pre Ha _ IH]; cbn; by rewrite ?IH.
Qed.

(** The fatal configuration errors of the ingest subcommand, in the order
    in which [cmdALB] checks them. *)
Lemma cmdALB_config_errors (w : World) (opt : Options) (explicit : list string)
      (lbs : list LoadBalancer) :
  newSession w = None ->
  describeLoadBalancers w [] = inr lbs ->
  WriteKey opt = "" \/ ~ 1 <= BackfillHr opt <= 168 \/
  (HighAvail opt = true /\ newDynamoDBStater w <> None) ->
  exists t,
    cmdALB ingestALB w opt ("ingest" :: explicit) = (t, Exit 1) /\
    (SignalNotify ∉ t) /\ publishAttempts t = [] /\
    (last t = Some fatalWriteKey \/ last t = Some (fatalBackfill opt) \/
     last t = Some fatalDynamo).
Proof.
  intros Hsess Hlist Hbad. unfold cmdALB. rewrite Hsess, Hlist.
  change (String.eqb "ingest" "ls" || String.eqb "ingest" "list") with false.
  change (String.eqb "ingest" "ingest") with true. cbv iota.
  assert (Hquiet : forall t : list Event,
             Forall (fun e => publishAttempts [e] = [] /\ e <> SignalNotify) t ->
             (SignalNotify ∉ t) /\ publishAttempts t = []).
  { induction 1 as [|e t [He Hs] _ [IHs IHp]]; [split; [apply not_elem_of_nil | done]|].
    split; [apply not_elem_of_cons; split; [by intros <- | done]|].
    unfold publishAttempts in *. cbn [omap] in *. by destruct e. }
  destruct (String.eqb (WriteKey opt) "") eqn:Hkey.
  { eexists. split; [reflexivity|].
    match goal with |- (_ ∉ ?t) /\ _ =>
      destruct (Hquiet t) as [H1 H2]; [by repeat constructor|] end.
    auto. }
  destruct ((BackfillHr opt <? 1) || (BackfillHr opt >? 168)) eqn:Hh.
  { eexists. split; [reflexivity|].
    match goal with |- (_ ∉ ?t) /\ _ =>
      destruct (Hquiet t) as [H1 H2]; [by repeat constructor|] end.
    auto. }
  apply writeKey_check in Hkey. apply backfill_check in Hh.
  destruct Hbad as [Hbad | [Hbad | [Hha Hdyn]]]; [done | done |].
  unfold when, newStater. rewrite Hha.
  destruct (newDynamoDBStater w) as [e|]; [|done].
  eexists. split; [reflexivity|].
  match goal with |- (_ ∉ ?t) /\ _ =>
    destruct (Hquiet t) as [H1 H2]; [by repeat constructor|] end.
  auto.
Qed.

(** C3, amended: a run of the ingest subcommand never ends with status 0:
    it ends with status 1 unless it panics.  The fatal configuration errors
    (state directory missing, write key missing, backfill hours out of
    range, no DynamoDB table with --highavail) end it with status 1 before
    the signal handler is installed and before anything is published.  Once
    the handler is installed, the interrupt ends the run with the fatal
    entry [Exiting due to interrupt.] and status 1 when the signal goroutine
    gets to run, not when the signal is delivered: the objects handed to
    [Publish] are those the loop receives up to that moment, the ones
    received after the delivery of the signal included, and none that comes
    later. *)
Theorem C3_interrupt_is_fatal
  (w : World) (inv : Invocation) (opt : Options) (explicit : list string)
  (Hparsed : parsed inv = inr (opt, "ingest" :: explicit))
  (Hver : Version opt = false) :
  let run := honeyalb w inv in
  exitStatus (outcome run) <> Some 0 /\
  (outcome run = Blocked \/ outcome run = Exit 1 \/ outcome run = Panic) /\
  (osStat w (StateDir opt) = StatNotExist \/
   (newSession w = None /\ (exists lbs, describeLoadBalancers w [] = inr lbs) /\
    (WriteKey opt = "" \/ ~ 1 <= BackfillHr opt <= 168 \/
     (HighAvail opt = true /\ newDynamoDBStater w <> None))) ->
   outcome run = Exit 1 /\ (SignalNotify ∉ trace run) /\
   publishAttempts (trace run) = []) /\
  (Interrupt ∈ arrivals w ->
   (exitStatus (outcome run) = Some 1 \/ exitStatus (outcome run) = Some 2) /\
   (SignalNotify ∈ trace run ->
    outcome run = Exit 1 /\
    fatalInterrupt ∈ trace run /\
    publishAttempts (trace run) = downloads (beforeInterrupt (arrivals w)) /\
    forall pre mid post,
      arrivals w = pre ++ SignalDelivered :: mid ++ Interrupt :: post ->
      Interrupt ∉ pre ++ mid ->
      publishAttempts (trace run) = downloads pre ++ downloads mid)).
Proof.
  intros run. subst run.
  destruct (mainPrelude_quiet inv opt) as [Hpub0 Hsig0].
  assert (Hconfig :
    osStat w (StateDir opt) = StatNotExist \/
    (newSession w = None /\ (exists lbs, describeLoadBalancers w [] = inr lbs) /\
     (WriteKey opt = "" \/ ~ 1 <= BackfillHr opt <= 168 \/
      (HighAvail opt = true /\ newDynamoDBStater w <> None))) ->
    outcome (honeyalb w inv) = Exit 1 /\ (SignalNotify ∉ trace (honeyalb w inv)) /\
    publishAttempts (trace (honeyalb w inv)) = []).
  { intros Hbad.
    destruct (decide (osStat w (StateDir opt) = StatNotExist)) as [Hstat|Hstat].
    { rewrite (main_missing_state_dir w inv opt _ Hparsed Hstat).
      cbn [trace outcome fst snd]. split; [done|]. split.
      - rewrite not_elem_of_app. split; [done|].
        apply not_elem_of_cons; split; [done | apply not_elem_of_nil].
      - unfold publishAttempts in *. by rewrite omap_app, Hpub0. }
    destruct Hbad as [Hbad | (Hsess & [lbs Hlist] & Hbad)]; [done|].
    rewrite (main_reaches_cmdALB w inv opt _ _ Hparsed Hstat Hver).
    destruct (fixDataset_fields opt) as (_ & Hk & Hb & Ha & _).
    destruct (cmdALB_config_errors w (fixDataset opt) explicit lbs Hsess Hlist)
      as (t & Hrun & Hsig & Hpub & _).
    { by rewrite Hk, Hb, Ha. }
    rewrite Hrun, bind_Ret. cbn [bind trace outcome fst snd].
    split; [done|]. split.
    - by rewrite not_elem_of_app.
    - unfold publishAttempts in *. by rewrite omap_app, Hpub0, Hpub. }
  destruct (honeyalb_ingest_cases w inv opt explicit Hparsed Hver)
    as [(pre & Hrun & Hpub & Hsig) | (Hpub & Hsig & Hout)].
  - split; [|split; [|split; [exact Hconfig|]]].
    + rewrite Hrun. cbn [outcome snd]. by destruct (existsb isInterrupt (arrivals w)).
    + rewrite Hrun. cbn [outcome snd]. destruct (existsb isInterrupt (arrivals w)); auto.
    + intros Hint. rewrite Hrun. cbn [trace outcome fst snd].
      rewrite (existsb_isInterrupt _ Hint). split; [by left|].
      intros _.
      change (pre ++ SignalNotify :: GoSignalWaiter :: loopCalls (arrivals w))
        with (pre ++ [SignalNotify; GoSignalWaiter] ++ loopCalls (arrivals w)).
      assert (Hattempts :
        publishAttempts (pre ++ [SignalNotify; GoSignalWaiter] ++ loopCalls (arrivals w))
        = downloads (beforeInterrupt (arrivals w))).
      { unfold publishAttempts in *. rewrite !omap_app, Hpub.
        apply loopCalls_attempts. }
      split; [done|]. split; [|split; [exact Hattempts|]].
      * apply elem_of_app. right. apply elem_of_app. right. by apply loopCalls_fatal.
      * intros before mid post Harr Hquiet. rewrite Hattempts, Harr.
        apply not_elem_Interrupt, Forall_app in Hquiet as [Hbefore Hmid].
        change (before ++ SignalDelivered :: mid ++ Interrupt :: post)
          with (before ++ (SignalDelivered :: mid) ++ Interrupt :: post).
        rewrite app_assoc, beforeInterrupt_app.
        -- by rewrite downloads_app.
        -- apply Forall_app. split; [done | by constructor].
  - split; [|split; [|split; [exact Hconfig|]]].
    + by destruct Hout as [-> | ->].
    + destruct Hout as [-> | ->]; auto.
    + intros Hint. split; [destruct Hout as [-> | ->]; auto|].
      intros Hin. by destruct Hsig.
Qed.

(** ** Load balancers that cannot be ingested *)

Lemma ingestAll_first_disabled (w : World) (opt : Options)
      (explicit pre post : list string) (id : string) (st : Stater) :
  explicit <> [] ->
  Forall (fun p => accessLogs w p = Some true) pre ->
  accessLogs w id = Some false ->
  exists arn,
    ingestAll ingestALB w opt explicit (pre ++ id :: post) st =
    (trace (ingestAll ingestALB w opt explicit pre st) ++
     [attempt id; DescribeLoadBalancers [id]; DescribeLoadBalancerAttributes arn;
      EPrintf accessLogsHelp [VStr id]; fatalResource], Exit 1).
Proof.
  intros Hne Hpre Hid.
  destruct (ingestOne_disabled_explicit w opt explicit id st Hne Hid) as (arn & Hone).
  exists arn. rewrite ingestAll_app, ingestAll_cons, Hone.
  rewrite (M_eta (ingestAll ingestALB w opt explicit pre st)).
  by rewrite (ingestAll_enabled w opt explicit pre st Hpre).
Qed.

Lemma ingestAll_first_unanswered (w : World) (opt : Options)
      (explicit pre post : list string) (id : string) (st : Stater) :
  Forall (fun p => accessLogs w p = Some true) pre ->
  accessLogs w id = None ->
  outcome (ingestAll ingestALB w opt explicit (pre ++ id :: post) st) = Exit 1 \/
  outcome (ingestAll ingestALB w opt explicit (pre ++ id :: post) st) = Panic.
Proof.
  intros Hpre Hid.
  rewrite ingestAll_app, ingestAll_cons, !outcome_bind.
  rewrite (ingestAll_enabled w opt explicit pre st Hpre).
  destruct (ingestOne_unanswered w opt explicit id st Hid) as [-> | ->]; auto.
Qed.

Lemma ingestAll_returns (w : World) (opt : Options) (explicit names : list string)
      (st : Stater) :
  outcome (ingestAll ingestALB w opt explicit names st) = Ret tt ->
  Forall (fun n => accessLogs w n = Some true \/
                   (explicit = [] /\ accessLogs w n = Some false)) names.
Proof.
  induction names as [|n names IH]; [by constructor|].
  rewrite ingestAll_cons, outcome_bind. intros Hout.
  destruct (outcome (ingestAll ingestALB w opt explicit [n] st)) as [[]| | |] eqn:Hone;
    try done.
  constructor; [|by apply IH].
  destruct (accessLogs w n) as [[|]|] eqn:Hn.
  - by left.
  - destruct explicit as [|x explicit]; [by right|].
    destruct (ingestOne_disabled_explicit w opt (x :: explicit) n st) as (arn & Hrun);
      [done..|].
    by rewrite Hrun in Hone.
  - destruct (ingestOne_unanswered w opt explicit n st Hn) as [H | H];
      by rewrite H in Hone.
Qed.

Lemma startCalls_quiet (opt : Options) (e : Event) :
  e ∈ startCalls opt ->
  (forall q, e <> errIngest q) /\ (forall q, e <> DescribeLoadBalancers [q]) /\
  e <> SignalNotify.
Proof.
  unfold startCalls. intros He.
  destruct (HighAvail opt); cbn in He;
    repeat (apply elem_of_cons in He as [-> | He]; [done|]);
    by apply elem_of_nil in He.
Qed.

(** C2 as worded fails: with two load balancers named on the command line,
    the first of which has no access logs, the error is not logged and
    skipped; the process ends and the second is never attempted. *)
Lemma C2_resource_isolation_counterexample :
  ~ resourceErrorIsolated demoWorld demoOptions ["web"; "api"].
Proof.
  intros H.
  destruct (H [lbWeb; lbApi] "web" eq_refl) as [Hlogged _].
  - apply list_elem_of_here.
  - reflexivity.
  - discriminate.
  - revert Hlogged. apply (bool_decide_unpack _). vm_compute. exact I.
Qed.

(** C2, amended: in a started run of the ingest subcommand, a load balancer
    without access logs ends the process with the fatal entry [Exiting due
    to fatal error.] whenever load balancers were named on the command
    line, one or several: its error is not logged as skipped and no later
    load balancer is attempted.  A load balancer for which a describe call
    fails or finds nothing ends the process in either mode, wherever it
    stands among the load balancers of the run: the signal handler is never
    installed.  With auto-discovered load balancers that all answer, every
    one is attempted, each one without access logs gets the error entry,
    each one with access logs gets its downloader, and the run goes on to
    the publisher loop. *)
Theorem C2_resource_errors
  (w : World) (opt : Options) (explicit : list string) (lbs : list LoadBalancer)
  (Hsess : newSession w = None)
  (Hlist : describeLoadBalancers w [] = inr lbs)
  (Hkey : WriteKey opt <> "")
  (Hh : 1 <= BackfillHr opt <= 168)
  (Hdyn : HighAvail opt = true -> newDynamoDBStater w = None) :
  let names := targets lbs explicit in
  let run := cmdALB ingestALB w opt ("ingest" :: explicit) in
  (forall pre id post,
     names = pre ++ id :: post ->
     Forall (fun p => accessLogs w p = Some true) pre ->
     explicit <> [] -> accessLogs w id = Some false ->
     outcome run = Exit 1 /\
     last (trace run) = Some fatalResource /\
     (errIngest id ∉ trace run) /\
     forall q, q ∉ pre -> q <> id -> DescribeLoadBalancers [q] ∉ trace run) /\
  (forall id,
     id ∈ names -> accessLogs w id = None ->
     (outcome run = Exit 1 \/ outcome run = Panic) /\
     (SignalNotify ∉ trace run) /\
     publishAttempts (trace run) = []) /\
  (explicit = [] ->
   Forall (fun n => accessLogs w n <> None) names ->
   SignalNotify ∈ trace run /\
   forall id, id ∈ names ->
     DescribeLoadBalancers [id] ∈ trace run /\
     (accessLogs w id = Some false -> errIngest id ∈ trace run) /\
     (accessLogs w id = Some true ->
      exists b p, GoDownload (staterOf opt) b p id (BackfillHr opt) ∈ trace run)).
Proof.
  intros names run. subst names run.
  rewrite (cmdALB_ingest_started w opt explicit lbs Hsess Hlist Hkey Hh Hdyn).
  rewrite bind_Ret. cbn [trace outcome fst snd].
  set (st := staterOf opt). set (names := targets lbs explicit).
  split; [|split].
  - intros pre id post Hnames Hpre Hne Hid.
    pose proof (ingestAll_calls w opt explicit pre st) as [Hcalls _].
    destruct (ingestAll_first_disabled w opt explicit pre post id st Hne Hpre Hid)
      as (arn & Hrun).
    rewrite Hnames, Hrun. cbn [bind trace outcome fst snd].
    split; [done|]. split; [by rewrite !last_app|].
    split.
    + rewrite !not_elem_of_app. split; [|split].
      * intros He. destruct (startCalls_quiet opt _ He) as (He' & _).
        exact (He' id eq_refl).
      * intros He. rewrite Forall_forall in Hcalls.
        destruct (Hcalls _ He) as (_ & _ & _ & _ & _ & _ & H7 & _).
        by destruct (H7 id eq_refl).
      * intros He.
        repeat (apply elem_of_cons in He as [He | He]; [done|]).
        by apply elem_of_nil in He.
    + intros q Hq Hqid. rewrite !not_elem_of_app. split; [|split].
      * intros He. destruct (startCalls_quiet opt _ He) as (_ & He' & _).
        exact (He' q eq_refl).
      * intros He. rewrite Forall_forall in Hcalls.
        destruct (Hcalls _ He) as (_ & _ & _ & _ & H5 & _).
        by specialize (H5 q eq_refl).
      * intros He.
        repeat (apply elem_of_cons in He as [He | He]; [by simplify_eq|]).
        by apply elem_of_nil in He.
  - intros id Hid Hnone. rewrite !outcome_bind, !trace_bind.
    pose proof (ingestAll_returns w opt explicit names st) as Hreturns.
    destruct (ingestAll_calls w opt explicit names st) as [Hall Hout].
    apply setupCalls_quiet in Hall as [Hpub Hsig].
    assert (Hpub0 : publishAttempts (startCalls opt) = [])
      by (unfold startCalls; by destruct (HighAvail opt)).
    destruct Hout as [Ho | [Ho | Ho]].
    + specialize (Hreturns Ho). rewrite Forall_forall in Hreturns.
      destruct (Hreturns id Hid) as [Hlogs | [_ Hlogs]]; congruence.
    + rewrite Ho, app_nil_r. split; [by left|]. split.
      * rewrite not_elem_of_app. split; [|done]. intros He.
        by destruct (startCalls_quiet opt _ He) as (_ & _ & He').
      * unfold publishAttempts in *. by rewrite omap_app, Hpub0, Hpub.
    + rewrite Ho, app_nil_r. split; [by right|]. split.
      * rewrite not_elem_of_app. split; [|done]. intros He.
        by destruct (startCalls_quiet opt _ He) as (_ & _ & He').
      * unfold publishAttempts in *. by rewrite omap_app, Hpub0, Hpub.
  - intros -> Hall.
    destruct (ingestAll_auto w opt names st Hall) as [Hout Hin].
    rewrite !trace_bind, Hout. split.
    + apply elem_of_app. right. apply elem_of_app. right. apply list_elem_of_here.
    + intros id Hid. destruct (Hin id Hid) as (Hd & Hf & Ht). repeat split.
      * apply elem_of_app. right. apply elem_of_app. by left.
      * intros Hl. apply elem_of_app. right. apply elem_of_app. left. by apply Hf.
      * intros Hl. destruct (Ht Hl) as (b & p & Hgo). exists b, p.
        apply elem_of_app. right. apply elem_of_app. by left.
Qed.

(** ** The pipeline run twice *)

Import Pipeline.

Lemma Seen_true (L : gmap string Z) (key : string) :
  Seen L key = true <-> key ∈ dom L.
Proof. unfold Seen. rewrite bool_decide_eq_true. by rewrite elem_of_dom. Qed.

Lemma Seen_false (L : gmap string Z) (key : string) :
  Seen L key = false <-> key ∉ dom L.
Proof. rewrite <- Seen_true. by destruct (Seen L key). Qed.

Lemma Recent_Seen (now window : Z) (L : gmap string Z) (key : string) :
  key ∈ Recent now window L -> key ∈ dom L.
Proof.
  unfold Recent. intros H. apply elem_of_dom in H as [ts H].
  apply map_lookup_filter_Some in H as [H _]. by apply elem_of_dom.
Qed.

Lemma Seen_insert_ne (L : gmap string Z) (key key' : string) (ts : Z) :
  key <> key' -> Seen (<[key := ts]> L) key' = Seen L key'.
Proof.
  intros Hne. unfold Seen. by rewrite lookup_insert_ne.
Qed.

Lemma processKey_spec (v : Variant) (c : Collaborators) (resource : string) (now : Z)
      (L : gmap string Z) (out : list DownloadedObject) (key : string) :
  processKey v c resource now (L, out) key =
  if emits L c key
  then (<[key := now]> L, out ++ [emitted c resource now key])
  else (L, out).
Proof.
  unfold processKey, emits, succeeds, MarkProcessed, emitted.
  destruct (Seen L key) eqn:Hseen; [done|]. cbn [negb andb].
  destruct (fetch c key) as [handle|]; [|done].
  rewrite bool_decide_eq_true_2 by done. cbn [andb default].
  destruct (ledgerWritable c key); [|done]. cbn [negb].
  destruct v; done.
Qed.

Lemma poll_fold (v : Variant) (c : Collaborators) (resource : string) (now : Z)
      (keys : list string) (L : gmap string Z) (out : list DownloadedObject) :
  NoDup keys ->
  foldl (processKey v c resource now) (L, out) keys =
  (markAll now L (List.filter (emits L c) keys),
   out ++ map (emitted c resource now) (List.filter (emits L c) keys)).
Proof.
  intros Hnd. revert L out.
  induction Hnd as [|key keys Hkey Hnd IH]; intros L out.
  - cbn. by rewrite app_nil_r.
  - cbn [foldl List.filter]. rewrite processKey_spec.
    destruct (emits L c key) eqn:He; [|apply IH].
    rewrite IH.
    assert (Hsame : List.filter (emits (<[key := now]> L) c) keys
                    = List.filter (emits L c) keys).
    { apply filter_ext_in. intros k Hk. unfold emits.
      rewrite Seen_insert_ne; [done|]. intros ->.
      by apply Hkey, list_elem_of_In. }
    rewrite Hsame. cbn [map markAll foldl]. by rewrite <- app_assoc.
Qed.

Lemma markAll_dom (now : Z) (keys : list string) (L : gmap string Z) :
  dom (markAll now L keys) = dom L ∪ list_to_set keys.
Proof.
  revert L. induction keys as [|k keys IH]; intros L; cbn.
  - by rewrite union_empty_r_L.
  - unfold markAll in IH. rewrite IH, dom_insert_L.
    by rewrite (union_comm_L {[k]} (dom L)), <- union_assoc_L.
Qed.

Lemma pollOnce_spec (v : Variant) (c : Collaborators) (resource : string)
      (now window : Z) (listing : list Listed) (L : gmap string Z) :
  pollOnce v c resource now window listing L =
  (markAll now L (List.filter (emits L c) (newKeys now window listing L)),
   map (emitted c resource now) (List.filter (emits L c) (newKeys now window listing L))).
Proof.
  unfold pollOnce. rewrite poll_fold by apply NoDup_elements. done.
Qed.

Lemma downloads_received (objs : list DownloadedObject) :
  downloads (map (fun d => Download d None) objs) = objs.
Proof. induction objs as [|d objs IH]; cbn; by rewrite ?IH. Qed.

Lemma publishAttemptsFor_keys (key : string) (objs : list DownloadedObject) :
  publishAttemptsFor key objs = count_occ String.string_dec (map ObjectKey objs) key.
Proof.
  unfold publishAttemptsFor.
  assert (Hquiet : Forall (fun a => isInterrupt a = false)
                          (map (fun d => Download d None) objs)).
  { apply Forall_forall. intros a Ha. by apply list_elem_of_fmap in Ha as (d & -> & _). }
  destruct (@publishLoop_quiet unit _ Hquiet) as [_ ->].
  by rewrite downloads_received.
Qed.

Lemma emitted_keys (c : Collaborators) (resource : string) (now : Z) (keys : list string) :
  map ObjectKey (map (emitted c resource now) keys) = keys.
Proof. induction keys as [|k keys IH]; cbn; by rewrite ?IH. Qed.

Lemma pollTwice_keys (v : Variant) (c1 c2 : Collaborators) (resource : string)
      (now window : Z) (listing : list Listed) (L : gmap string Z) :
  exists first second L1,
    map ObjectKey (pollTwice v c1 c2 resource now window listing L) = first ++ second /\
    first = List.filter (emits L c1) (newKeys now window listing L) /\
    second = List.filter (emits L1 c2) (newKeys now window listing L1) /\
    dom L1 = dom L ∪ list_to_set first /\
    (pollOnce v c1 resource now window listing L).1 = L1 /\
    NoDup (first ++ second).
Proof.
  unfold pollTwice. rewrite (pollOnce_spec v c1).
  set (first := List.filter (emits L c1) (newKeys now window listing L)).
  set (L1 := markAll now L first).
  cbv beta iota. rewrite (pollOnce_spec v c2).
  set (second := List.filter (emits L1 c2) (newKeys now window listing L1)).
  exists first, second, L1.
  assert (Hdom : dom L1 = dom L ∪ list_to_set first) by apply markAll_dom.
  split; [by rewrite map_app, !emitted_keys|].
  do 4 (split; [done|]).
  apply NoDup_app. split; [|split].
  - unfold first. apply NoDup_ListNoDup, List.NoDup_filter, NoDup_ListNoDup, NoDup_elements.
  - intros k Hk1 Hk2. unfold second in Hk2.
    apply list_elem_of_In, filter_In in Hk2 as [_ He]. unfold emits in He.
    apply andb_true_iff in He as [Hs _]. apply negb_true_iff, Seen_false in Hs.
    apply Hs. rewrite Hdom. apply elem_of_union_r. by apply elem_of_list_to_set.
  - unfold second. apply NoDup_ListNoDup, List.NoDup_filter, NoDup_ListNoDup, NoDup_elements.
Qed.

(** C1, on the pipeline modelled from the spec: for a key that is listed
    inside the window, is not in the ledger at the start, and whose download
    and mark succeed in the first run or in the second, running the pipeline
    twice over the same window puts exactly one publish attempt for it in
    front of the publisher loop.  No key gets more than one, and every
    object emitted by the first run is marked in the ledger that run
    leaves, which is why the second run skips it. *)
Theorem C1_pipeline_twice_publishes_once
  (v : Variant) (c1 c2 : Collaborators) (resource : string)
  (now window : Z) (listing : list Listed) (L : gmap string Z) (key : string)
  (Hlisted : key ∈ candidates now window listing)
  (Hnew : Seen L key = false)
  (Hok : succeeds c1 key = true \/ succeeds c2 key = true) :
  publishAttemptsFor key (pollTwice v c1 c2 resource now window listing L) = 1%nat /\
  (forall k, (publishAttemptsFor k (pollTwice v c1 c2 resource now window listing L) <= 1)%nat) /\
  (forall d, d ∈ (pollOnce v c1 resource now window listing L).2 ->
             Seen (pollOnce v c1 resource now window listing L).1 (ObjectKey d) = true).
Proof.
  destruct (pollTwice_keys v c1 c2 resource now window listing L)
    as (first & second & L1 & Hkeys & Hfirst & Hsecond & Hdom & HL1 & Hnd).
  assert (Hmost : forall k, (publishAttemptsFor k
             (pollTwice v c1 c2 resource now window listing L) <= 1)%nat).
  { intros k. rewrite publishAttemptsFor_keys, Hkeys.
    by apply NoDup_count_occ, NoDup_ListNoDup. }
  split; [|split; [done|]].
  - rewrite publishAttemptsFor_keys, Hkeys.
    apply NoDup_count_occ'; [by apply NoDup_ListNoDup|].
    apply Seen_false in Hnew.
    assert (Hin0 : In key (newKeys now window listing L)).
    { apply list_elem_of_In, elem_of_elements, elem_of_difference.
      split; [done|]. intros Hr. by apply Hnew, (Recent_Seen now window). }
    apply in_or_app.
    destruct (emits L c1 key) eqn:He1.
    { left. rewrite Hfirst. by apply filter_In. }
    right. rewrite Hsecond.
    assert (Hc1 : succeeds c1 key = false).
    { unfold emits in He1. apply Seen_false in Hnew. by rewrite Hnew in He1. }
    destruct Hok as [Hok|Hok]; [congruence|].
    assert (Hnot : key ∉ dom L1).
    { rewrite Hdom, elem_of_union. intros [H|H]; [done|].
      apply elem_of_list_to_set in H. rewrite Hfirst in H.
      apply list_elem_of_In, filter_In in H as [_ H]. congruence. }
    apply filter_In. split.
    + apply list_elem_of_In, elem_of_elements, elem_of_difference.
      split; [done|]. intros Hr. by apply Hnot, (Recent_Seen now window).
    + unfold emits. apply Seen_false in Hnot. by rewrite Hnot, Hok.
  - intros d Hd. rewrite HL1. rewrite pollOnce_spec in Hd. cbn [snd] in Hd.
    apply list_elem_of_fmap in Hd as (k & -> & Hk). cbn [ObjectKey emitted].
    apply Seen_true. rewrite Hdom. apply elem_of_union_r, elem_of_list_to_set.
    by rewrite Hfirst.
Qed.


(** ** The theorems at work on the example world *)

Lemma C1_pipeline_twice_publishes_once_witness :
  Seen demoLedger "logs/1.gz" = false /\
  succeeds demoCollaborators "logs/1.gz" = true /\
  publishAttemptsFor "logs/1.gz"
    (pollTwice Distributed flakyCollaborators demoCollaborators "api" 100 24
               demoListing demoLedger) = 1%nat.
Proof.
  split; [vm_compute; reflexivity|]. split; [vm_compute; reflexivity|].
  refine (proj1 (C1_pipeline_twice_publishes_once
                   Distributed flakyCollaborators demoCollaborators "api" 100 24
                   demoListing demoLedger "logs/1.gz" _ _ _)).
  - apply (bool_decide_unpack _). vm_compute. exact I.
  - vm_compute. reflexivity.
  - right. vm_compute. reflexivity.
Defined.

Lemma C2_resource_errors_witness :
  accessLogs demoWorld "web" = Some false /\
  outcome (cmdALB ingestALB demoWorld demoOptions ["ingest"; "web"; "api"]) = Exit 1 /\
  last (trace (cmdALB ingestALB demoWorld demoOptions ["ingest"; "web"; "api"]))
    = Some fatalResource /\
  accessLogs goneWorld "gone" = None /\
  (outcome (cmdALB ingestALB goneWorld demoOptions ["ingest"]) = Exit 1 \/
   outcome (cmdALB ingestALB goneWorld demoOptions ["ingest"]) = Panic).
Proof.
  split; [reflexivity|].
  assert (Hkey : WriteKey demoOptions <> "") by discriminate.
  assert (Hh : 1 <= BackfillHr demoOptions <= 168) by (cbn; lia).
  assert (Hdyn : HighAvail demoOptions = true -> newDynamoDBStater demoWorld = None)
    by discriminate.
  assert (Hdyn' : HighAvail demoOptions = true -> newDynamoDBStater goneWorld = None)
    by discriminate.
  assert (Hne : ["web"; "api"] <> @nil string) by discriminate.
  destruct (proj1 (C2_resource_errors demoWorld demoOptions ["web"; "api"] [lbWeb; lbApi]
                     eq_refl eq_refl Hkey Hh Hdyn)
              [] "web" ["api"] eq_refl (Forall_nil_2 _) Hne eq_refl)
    as (Hout & Hlast & _).
  split; [exact Hout|]. split; [exact Hlast|]. split; [reflexivity|].
  assert (Hgone : "gone" ∈ targets
                    [lbWeb; {| LoadBalancerName := "gone"; LoadBalancerArn := "arn:gone" |}]
                    []).
  { cbn. apply list_elem_of_further, list_elem_of_here. }
  exact (proj1 (proj1 (proj2 (C2_resource_errors goneWorld demoOptions [] _
                                eq_refl eq_refl Hkey Hh Hdyn'))
                      "gone" Hgone eq_refl)).
Defined.

Lemma C3_interrupt_is_fatal_witness :
  Version demoOptions = false /\
  outcome (honeyalb racingWorld (demoInvocation demoOptions ["ingest"])) = Exit 1 /\
  publishAttempts (trace (honeyalb racingWorld (demoInvocation demoOptions ["ingest"])))
  = [object1; object2].
Proof.
  split; [reflexivity|].
  assert (Hint : Interrupt ∈ arrivals racingWorld).
  { cbn. do 3 apply list_elem_of_further. apply list_elem_of_here. }
  assert (Hin : SignalNotify
                  ∈ trace (honeyalb racingWorld (demoInvocation demoOptions ["ingest"]))).
  { apply (bool_decide_unpack _). vm_compute. exact I. }
  assert (Hquiet : Interrupt ∉ [Download object1 (Some (LibError "parse error"))]
                                ++ [Download object2 None]).
  { cbn. intros H.
    repeat (apply elem_of_cons in H as [H | H]; [discriminate H|]).
    by apply elem_of_nil in H. }
  destruct (C3_interrupt_is_fatal racingWorld (demoInvocation demoOptions ["ingest"])
              demoOptions [] eq_refl eq_refl) as (_ & _ & _ & Hinterrupt).
  destruct (Hinterrupt Hint) as [_ Hloop].
  destruct (Hloop Hin) as (Hout & _ & _ & Hrace).
  split; [exact Hout|].
  exact (Hrace [Download object1 (Some (LibError "parse error"))]
               [Download object2 None] [Download object3 None] eq_refl Hquiet).
Defined.

Lemma C4_highavail_without_table_is_fatal_witness :
  HighAvail (withHighAvail demoOptions) = true /\
  cmdALB ingestALB demoWorld (withHighAvail demoOptions) ["ingest"] =
    ([NewSession; DescribeLoadBalancers []; NewDynamoDBStater 24; fatalDynamo], Exit 1).
Proof.
  split; [reflexivity|].
  refine (proj2 (C4_highavail_without_table_is_fatal demoWorld (withHighAvail demoOptions)
                   (LibError "ResourceNotFoundException") eq_refl eq_refl)
                [] [lbWeb; lbApi] eq_refl eq_refl _ _).
  - discriminate.
  - cbn. lia.
Defined.

Lemma C5_backfill_window_gate_witness :
  ~ 1 <= BackfillHr (withBackfill demoOptions 200) <= 168 /\
  cmdALB ingestALB demoWorld (withBackfill demoOptions 200) ["ingest"] =
    ([NewSession; DescribeLoadBalancers []; fatalBackfill (withBackfill demoOptions 200)],
     Exit 1).
Proof.
  assert (Hh : ~ 1 <= BackfillHr (withBackfill demoOptions 200) <= 168) by (cbn; lia).
  assert (Hkey : WriteKey (withBackfill demoOptions 200) <> "") by discriminate.
  split; [exact Hh|].
  exact (proj2 (proj2 (C5_backfill_window_gate demoWorld (withBackfill demoOptions 200)
                         [] [lbWeb; lbApi] eq_refl eq_refl Hkey)) Hh).
Defined.

Lemma C6_publish_failure_isolated_witness :
  publishAttempts
    (trace (@publishLoop (option error)
              [Download object1 (Some (LibError "parse error")); Download object2 None]))
  = [object1; object2].
Proof.
  assert (Hquiet : Interrupt ∉ @nil Arrival ++ []) by apply not_elem_of_nil.
  destruct (proj2 (C6_publish_failure_isolated [] [] [] object1 object2
                     (Some (LibError "parse error")) None Hquiet)
              (not_elem_of_nil Interrupt)) as [_ Hattempts].
  exact Hattempts.
Defined.

Lemma C7_disabled_logging_fails_fast_witness :
  outcome (ingestALB demoWorld demoOptions "web" FileStater)
  = Ret (Some (ErrorsNew "access logs no enabled")).
Proof.
  assert (Hoff : ("access_logs.s3.enabled", "true")
                   ∉ [("access_logs.s3.enabled", "false"); ("access_logs.s3.bucket", "")]).
  { apply (bool_decide_unpack _). vm_compute. exact I. }
  destruct (C7_disabled_logging_fails_fast demoWorld demoOptions "web" FileStater
              lbWeb [] _ eq_refl eq_refl Hoff) as [Hrun _].
  rewrite Hrun. reflexivity.
Defined.

Lemma C8_missing_write_key_is_fatal_witness :
  WriteKey (withWriteKey demoOptions "") = "" /\
  cmdALB ingestALB demoWorld (withWriteKey demoOptions "") ["ingest"; "api"] =
    ([NewSession; DescribeLoadBalancers []; fatalWriteKey], Exit 1).
Proof.
  split; [reflexivity|].
  exact (proj2 (C8_missing_write_key_is_fatal demoWorld (withWriteKey demoOptions "")
                  ["api"] eq_refl) eq_refl [lbWeb; lbApi] eq_refl).
Defined.

Lemma C9_missing_state_dir_is_fatal_witness :
  osStat demoWorld "/nowhere" = StatNotExist /\
  Version (withStateDir (withHighAvail demoOptions) "/nowhere" true) = true /\
  exitStatus
    (outcome (honeyalb demoWorld
                (demoInvocation (withStateDir (withHighAvail demoOptions) "/nowhere" true)
                                ["ls"]))) = Some 1.
Proof.
  split; [reflexivity|]. split; [reflexivity|].
  exact (proj2 (C9_missing_state_dir_is_fatal demoWorld
                  (demoInvocation (withStateDir (withHighAvail demoOptions) "/nowhere" true)
                                  ["ls"])
                  (withStateDir (withHighAvail demoOptions) "/nowhere" true) ["ls"]
                  eq_refl eq_refl)).
Defined.

Lemma C10_listing_precedes_subcommand_witness :
  describeLoadBalancers offlineWorld [] = inl (LibError "RequestError") /\
  honeyalb offlineWorld (demoInvocation demoOptions ["frobnicate"]) =
    (mainPrelude (demoInvocation demoOptions ["frobnicate"]) demoOptions ++
     [NewSession; DescribeLoadBalancers [];
      EPrintln [VStr "Error: "; VErr (LibError "RequestError")]],
     Exit 1).
Proof.
  split; [reflexivity|].
  assert (Hstat : osStat offlineWorld (StateDir demoOptions) <> StatNotExist)
    by discriminate.
  exact (proj2 (C10_listing_precedes_subcommand offlineWorld
                  (demoInvocation demoOptions ["frobnicate"]) demoOptions
                  "frobnicate" [] eq_refl Hstat eq_refl eq_refl)).
Defined.

(** ** Further properties of main.go *)


Lemma main_version (w : World) (inv : Invocation) (opt : Options) (args : list string) :
  parsed inv = inr (opt, args) ->
  osStat w (StateDir opt) <> StatNotExist ->
  Version opt = true ->
  honeyalb w inv =
  (mainPrelude inv opt ++ [Println [VStr "honeyalb version"; VStr (versionStr inv)]],
   Exit 0).
Proof.
  intros Hparsed Hstat Hver. unfold honeyalb, main. rewrite Hparsed.
  destruct (fixDataset_fields opt) as (-> & _ & _ & _ & -> & _).
  rewrite Hver. unfold mainPrelude.
  destruct (Debug opt), (osStat w (StateDir opt)); done.
Qed.

Lemma main_usage (w : World) (inv : Invocation) (opt : Options) :
  parsed inv = inr (opt, []) ->
  osStat w (StateDir opt) <> StatNotExist ->
  Version opt = false ->
  honeyalb w inv = (mainPrelude inv opt ++ [EPrintln [VStr (usage inv)]], Exit 1).
Proof.
  intros Hparsed Hstat Hver. unfold honeyalb, main. rewrite Hparsed.
  destruct (fixDataset_fields opt) as (-> & _ & _ & _ & -> & _).
  rewrite Hver. unfold mainPrelude.
  destruct (Debug opt), (osStat w (StateDir opt)); done.
Qed.

(** X2: with --version, once the flags are parsed and the state directory
    is not reported missing, [main] prints the version line and exits with
    status 0 whatever the arguments: no usage error without arguments, no
    AWS session, no subcommand. *)
Theorem X2_version_flag_wins
  (w : World) (inv : Invocation) (opt : Options) (args : list string)
  (Hparsed : parsed inv = inr (opt, args))
  (Hstat : osStat w (StateDir opt) <> StatNotExist)
  (Hver : Version opt = true) :
  honeyalb w inv =
  (mainPrelude inv opt ++ [Println [VStr "honeyalb version"; VStr (versionStr inv)]],
   Exit 0) /\
  Forall (fun e => isSetupCall e = false) (trace (honeyalb w inv)).
Proof.
  pose proof (main_version w inv opt args Hparsed Hstat Hver) as Hrun.
  split; [done|]. rewrite Hrun. unfold mainPrelude.
  destruct (Debug opt); cbn; repeat (apply Forall_cons_2 || apply Forall_nil_2); done.
Qed.

(** X3: without --version and without arguments, [main] prints the usage
    text, which names the program twice, on stderr and exits with status 1
    before any AWS call. *)
Theorem X3_no_arguments_prints_usage
  (w : World) (inv : Invocation) (opt : Options)
  (Hparsed : parsed inv = inr (opt, []))
  (Hstat : osStat w (StateDir opt) <> StatNotExist)
  (Hver : Version opt = false) :
  honeyalb w inv = (mainPrelude inv opt ++ [EPrintln [VStr (usage inv)]], Exit 1) /\
  Forall (fun e => isSetupCall e = false) (trace (honeyalb w inv)).
Proof.
  pose proof (main_usage w inv opt Hparsed Hstat Hver) as Hrun.
  split; [done|]. rewrite Hrun. unfold mainPrelude.
  destruct (Debug opt); cbn; repeat (apply Forall_cons_2 || apply Forall_nil_2); done.
Qed.

(** X4: [main] stops on the state directory only when [os.Stat] reports
    that it does not exist; any other answer, an error such as permission
    denied included, gives the very run of a successful stat. *)
Theorem X4_other_stat_errors_are_ignored
  (w : World) (inv : Invocation) (opt : Options) (args : list string)
  (Hparsed : parsed inv = inr (opt, args))
  (Hstat : osStat w (StateDir opt) <> StatNotExist) :
  honeyalb w inv = honeyalb (setStat w (fun _ => StatOk)) inv.
Proof.
  unfold honeyalb, main. rewrite Hparsed.
  destruct (fixDataset_fields opt) as (-> & _).
  cbn [osStat setStat].
  destruct (osStat w (StateDir opt)); done.
Qed.

(** X5: the rewrite of the data set name in [main] removes the placeholder
    [aws-$SERVICE-access] and nothing else: the result never carries the
    placeholder, a second application changes nothing, and options with
    another data set name are left as they are. *)
Theorem X5_dataset_placeholder_is_replaced (opt : Options) :
  Dataset (fixDataset opt) <> "aws-$SERVICE-access" /\
  fixDataset (fixDataset opt) = fixDataset opt /\
  (Dataset opt = "aws-$SERVICE-access" \/ fixDataset opt = opt).
Proof.
  unfold fixDataset.
  destruct (String.eqb (Dataset opt) "aws-$SERVICE-access") eqn:Hd.
  - apply String.eqb_eq in Hd. cbn. split; [done|]. split; [done | by left].
  - rewrite Hd. apply String.eqb_neq in Hd. split; [done|]. split; [done | by right].
Qed.

(** X6: the subcommands ls and list are the same: after the session and the
    listing succeed, [cmdALB] prints the names of the listed load balancers,
    one per line in listing order, and returns nil.  Neither the write key
    nor the backfill hours are looked at and further arguments are ignored. *)
Theorem X6_ls_prints_the_listing
  (w : World) (opt : Options) (sub : string) (rest : list string)
  (lbs : list LoadBalancer)
  (Hsess : newSession w = None)
  (Hlist : describeLoadBalancers w [] = inr lbs)
  (Hsub : sub = "ls" \/ sub = "list") :
  cmdALB ingestALB w opt (sub :: rest) =
  ([NewSession; DescribeLoadBalancers []] ++
   map (fun lb => Println [VStr (LoadBalancerName lb)]) lbs, Ret None).
Proof.
  unfold cmdALB. rewrite Hsess, Hlist.
  assert (Hls : String.eqb sub "ls" || String.eqb sub "list" = true)
    by (destruct Hsub as [-> | ->]; reflexivity).
  rewrite Hls, forEach_println. unfold call, ret. rewrite !bind_Ret.
  cbn [trace outcome fst snd app]. by rewrite app_nil_r.
Qed.

(** *** The attribute scan and the downloader *)

Lemma lastValue_absent (key : string) (attrs : list (string * string)) :
  existsb (fun kv => String.eqb kv.1 key) attrs = false -> lastValue key attrs = "".
Proof.
  induction attrs as [|[k v] attrs IH]; [done|].
  cbn [existsb lastValue fst]. intros H.
  apply orb_false_iff in H as [Hk Ht]. by rewrite Ht, Hk.
Qed.

Lemma scanAttributes_fold (attrs : list (string * string)) (e : bool) (b p : string) :
  fold_left scanAttribute attrs (e, b, p) =
  (e || existsb (fun kv => String.eqb kv.1 "access_logs.s3.enabled"
                           && String.eqb kv.2 "true") attrs,
   if existsb (fun kv => String.eqb kv.1 "access_logs.s3.bucket") attrs
   then lastValue "access_logs.s3.bucket" attrs else b,
   if existsb (fun kv => String.eqb kv.1 "access_logs.s3.prefix") attrs
   then lastValue "access_logs.s3.prefix" attrs else p).
Proof.
  revert e b p. induction attrs as [|[k v] attrs IH]; intros e b p.
  - cbn. by rewrite orb_false_r.
  - cbn [fold_left]. unfold scanAttribute at 2. rewrite IH.
    cbn [existsb lastValue fst snd].
    destruct (existsb (fun kv => String.eqb kv.1 "access_logs.s3.bucket") attrs),
             (existsb (fun kv => String.eqb kv.1 "access_logs.s3.prefix") attrs),
             (String.eqb k "access_logs.s3.bucket"),
             (String.eqb k "access_logs.s3.prefix"),
             (String.eqb k "access_logs.s3.enabled" && String.eqb v "true"),
             e; reflexivity.
Qed.

Lemma scanAttributes_last (attrs : list (string * string)) :
  scanAttributes attrs =
  (existsb (fun kv => String.eqb kv.1 "access_logs.s3.enabled"
                      && String.eqb kv.2 "true") attrs,
   lastValue "access_logs.s3.bucket" attrs,
   lastValue "access_logs.s3.prefix" attrs).
Proof.
  unfold scanAttributes. rewrite scanAttributes_fold. cbn [orb].
  destruct (existsb (fun kv => String.eqb kv.1 "access_logs.s3.bucket") attrs) eqn:Hb,
           (existsb (fun kv => String.eqb kv.1 "access_logs.s3.prefix") attrs) eqn:Hp;
    by rewrite ?(lastValue_absent _ _ Hb), ?(lastValue_absent _ _ Hp).
Qed.

(** X7: the loop over the attributes of a load balancer keeps, for the
    bucket and for the prefix, the value of the last attribute with that
    key (the empty string without one), and reports access logs as enabled
    as soon as one attribute [access_logs.s3.enabled] has the value [true],
    whatever comes after it. *)
Theorem X7_attribute_scan (attrs : list (string * string)) :
  scanAttributes attrs =
  (existsb (fun kv => String.eqb kv.1 "access_logs.s3.enabled"
                      && String.eqb kv.2 "true") attrs,
   lastValue "access_logs.s3.bucket" attrs,
   lastValue "access_logs.s3.prefix" attrs).
Proof. exact (scanAttributes_last attrs). Qed.


(** *** The loop over the load balancers, in order *)

Lemma ingestAll_completes (w : World) (opt : Options) (explicit names : list string)
      (st : Stater) :
  Forall (fun n => accessLogs w n = Some true \/
                   (explicit = [] /\ accessLogs w n = Some false)) names ->
  outcome (ingestAll ingestALB w opt explicit names st) = Ret tt /\
  describedIds (trace (ingestAll ingestALB w opt explicit names st)) = names /\
  downloaderIds (trace (ingestAll ingestALB w opt explicit names st))
    = List.filter (hasLogs w) names.
Proof.
  induction 1 as [|n names Hn _ (IHo & IHd & IHg)]; [done|].
  rewrite ingestAll_cons, outcome_bind, trace_bind.
  unfold describedIds, downloaderIds in *. rewrite !omap_app.
  cbn [List.filter]. unfold hasLogs at 1.
  destruct Hn as [Hn | [-> Hn]].
  - destruct (ingestOne_enabled w opt explicit n st Hn) as (arn & b & p & ->).
    cbn [trace outcome fst snd]. rewrite IHo, IHd, IHg, Hn.
    by rewrite bool_decide_eq_true_2.
  - destruct (ingestOne_disabled_auto w opt n st Hn) as (arn & ->).
    cbn [trace outcome fst snd]. rewrite IHo, IHd, IHg, Hn.
    by rewrite bool_decide_eq_false_2.
Qed.

Lemma startCalls_ids (opt : Options) :
  describedIds (startCalls opt) = [] /\ downloaderIds (startCalls opt) = [].
Proof. unfold startCalls. by destruct (HighAvail opt). Qed.

Lemma loopCalls_quiet (inbox : list Arrival) :
  Forall (fun e => isSetupCall e = false) (loopCalls inbox).
Proof.
  induction inbox as [|[d [err|]| |] inbox IH]; cbn;
    repeat (apply Forall_cons_2 || apply Forall_nil_2); done.
Qed.

Lemma quiet_ids (t : list Event) :
  Forall (fun e => isSetupCall e = false) t ->
  describedIds t = [] /\ downloaderIds t = [] /\ SignalNotify ∉ t.
Proof.
  induction 1 as [|e t He _ (IHd & IHg & IHs)];
    [split; [done | split; [done | apply not_elem_of_nil]]|].
  unfold describedIds, downloaderIds in *.
  split; [destruct e; try discriminate He; exact IHd|].
  split; [destruct e; try discriminate He; exact IHg|].
  apply not_elem_of_cons. split; [by intros <- | done].
Qed.

(** X9: a started run of the ingest subcommand gets to the signal handler
    and the publisher loop exactly when every load balancer it works on has
    access logs or, with auto-discovery only, answers the describe calls
    without them.  Then the load balancers are described one by one in the
    order of the command line (of the listing, for auto-discovery), each
    one with access logs gets its downloader in that order, repeated names
    included, and the run ends only through the interrupt. *)
Theorem X9_setup_completes_in_order
  (w : World) (opt : Options) (explicit : list string) (lbs : list LoadBalancer)
  (Hsess : newSession w = None)
  (Hlist : describeLoadBalancers w [] = inr lbs)
  (Hkey : WriteKey opt <> "")
  (Hh : 1 <= BackfillHr opt <= 168)
  (Hdyn : HighAvail opt = true -> newDynamoDBStater w = None) :
  let names := targets lbs explicit in
  let run := cmdALB ingestALB w opt ("ingest" :: explicit) in
  (SignalNotify ∈ trace run <->
   Forall (fun n => accessLogs w n = Some true \/
                    (explicit = [] /\ accessLogs w n = Some false)) names) /\
  (SignalNotify ∈ trace run ->
   describedIds (trace run) = names /\
   downloaderIds (trace run) = List.filter (hasLogs w) names /\
   outcome run = if existsb isInterrupt (arrivals w) then Exit 1 else Blocked).
Proof.
  intros names run. subst names run.
  rewrite (cmdALB_ingest_started w opt explicit lbs Hsess Hlist Hkey Hh Hdyn).
  rewrite publishLoop_spec, bind_Ret. cbn [trace outcome fst snd].
  set (st := staterOf opt). set (names := targets lbs explicit).
  destruct (startCalls_ids opt) as [Hd0 Hg0].
  destruct (quiet_ids _ (loopCalls_quiet (arrivals w))) as (Hdl & Hgl & Hsl).
  rewrite trace_bind, outcome_bind.
  pose proof (ingestAll_completes w opt explicit names st) as Hcomplete.
  pose proof (ingestAll_returns w opt explicit names st) as Hreturns.
  destruct (ingestAll_calls w opt explicit names st) as [Hcalls _].
  apply setupCalls_quiet in Hcalls as [_ Hsig].
  destruct (outcome (ingestAll ingestALB w opt explicit names st)) as [[]|c| |] eqn:Ho.
  - specialize (Hreturns eq_refl).
    destruct (Hcomplete Hreturns) as (_ & Hd & Hg).
    unfold call. rewrite !bind_Ret. cbn [trace outcome fst snd app].
    change (SignalNotify :: GoSignalWaiter :: loopCalls (arrivals w))
      with ([SignalNotify; GoSignalWaiter] ++ loopCalls (arrivals w)).
    assert (Hin : SignalNotify ∈ startCalls opt ++
                    trace (ingestAll ingestALB w opt explicit names st) ++
                    [SignalNotify; GoSignalWaiter] ++ loopCalls (arrivals w)).
    { apply elem_of_app. right. apply elem_of_app. right. apply list_elem_of_here. }
    split; [by split|]. intros _.
    unfold describedIds, downloaderIds in *.
    rewrite !omap_app, Hd0, Hg0, Hd, Hg, Hdl, Hgl. cbn [omap app].
    by rewrite !app_nil_r.
  - rewrite app_nil_r.
    assert (Hnot : SignalNotify ∉ startCalls opt ++
                     trace (ingestAll ingestALB w opt explicit names st)).
    { rewrite not_elem_of_app. split; [|done].
      intros Hin. by destruct (startCalls_quiet opt _ Hin) as (_ & _ & Hne). }
    split; [split|]; [done | | done].
    intros Hall. by destruct (Hcomplete Hall) as (? & _).
  - rewrite app_nil_r.
    assert (Hnot : SignalNotify ∉ startCalls opt ++
                     trace (ingestAll ingestALB w opt explicit names st)).
    { rewrite not_elem_of_app. split; [|done].
      intros Hin. by destruct (startCalls_quiet opt _ Hin) as (_ & _ & Hne). }
    split; [split|]; [done | | done].
    intros Hall. by destruct (Hcomplete Hall) as (? & _).
  - rewrite app_nil_r.
    assert (Hnot : SignalNotify ∉ startCalls opt ++
                     trace (ingestAll ingestALB w opt explicit names st)).
    { rewrite not_elem_of_app. split; [|done].
      intros Hin. by destruct (startCalls_quiet opt _ Hin) as (_ & _ & Hne). }
    split; [split|]; [done | | done].
    intros Hall. by destruct (Hcomplete Hall) as (? & _).
Qed.

(** *** The signal handler *)

(** X10: in every run of the ingest subcommand the signal handler is
    installed at most once and only after the whole setup: nothing is handed
    to [Publish] before it, and after it come the waiting goroutine and the
    calls of the publisher loop, none of which touches a session, a load
    balancer, a ledger or a downloader. *)
Theorem X10_handler_after_setup
  (w : World) (opt : Options) (explicit : list string)
  (Hin : SignalNotify ∈ trace (cmdALB ingestALB w opt ("ingest" :: explicit))) :
  exists pre,
    trace (cmdALB ingestALB w opt ("ingest" :: explicit)) =
      pre ++ SignalNotify :: GoSignalWaiter :: loopCalls (arrivals w) /\
    (SignalNotify ∉ pre) /\
    publishAttempts pre = [] /\
    Forall (fun e => isSetupCall e = false) (loopCalls (arrivals w)).
Proof.
  destruct (cmdALB_ingest_cases w opt explicit)
    as [(pre & Hrun & Hpub & Hsig) | (_ & Hsig & _)]; [|done].
  exists pre. rewrite Hrun. cbn [trace fst].
  repeat split; try done. apply loopCalls_quiet.
Qed.

(** *** The backfill duration *)

Lemma backfill_hours_exact (h : Z) :
  1 <= h <= 168 -> wrap64 (h * timeHour) = h * 3600000000000.
Proof.
  intros Hh. unfold wrap64, timeHour. rewrite Z.mod_small; lia.
Qed.

(** X11: the duration logged with [Backfill will be] is exact: the range
    check on the backfill hours comes first, so the product of the hours
    and [time.Hour] stays far from the 64-bit wrap-around. *)
Theorem X11_backfill_duration_is_exact
  (w : World) (opt : Options) (explicit : list string) (lbs : list LoadBalancer)
  (Hsess : newSession w = None)
  (Hlist : describeLoadBalancers w [] = inr lbs)
  (Hkey : WriteKey opt <> "")
  (Hh : 1 <= BackfillHr opt <= 168)
  (Hdyn : HighAvail opt = true -> newDynamoDBStater w = None) :
  Log DebugLevel [("hours", VDuration (BackfillHr opt * 3600000000000))]
      (VStr "Backfill will be")
    ∈ trace (cmdALB ingestALB w opt ("ingest" :: explicit)) /\
  0 < BackfillHr opt * 3600000000000 < 2 ^ 63.
Proof.
  split; [|lia].
  rewrite (cmdALB_ingest_started w opt explicit lbs Hsess Hlist Hkey Hh Hdyn).
  rewrite bind_Ret. cbn [trace fst]. apply elem_of_app. left.
  unfold startCalls. rewrite (backfill_hours_exact _ Hh).
  apply elem_of_app. right. apply elem_of_app. right. apply list_elem_of_here.
Qed.

(** *** How the process can end *)

Lemma ingestOne_panics (w : World) (opt : Options) (explicit : list string)
      (id : string) (st : Stater) :
  outcome (ingestAll ingestALB w opt explicit [id] st) = Panic ->
  describeLoadBalancers w [id] = inr [].
Proof.
  destruct (accessLogs w id) as [[|]|] eqn:Hlogs.
  - by destruct (ingestOne_enabled w opt explicit id st Hlogs) as (arn & b & p & ->).
  - destruct explicit as [|x explicit].
    + by destruct (ingestOne_disabled_auto w opt id st Hlogs) as (arn & ->).
    + by destruct (ingestOne_disabled_explicit w opt (x :: explicit) id st)
        as (arn & ->).
  - clear Hlogs. unfold ingestAll. cbn [forEach]. rewrite bind_ret_tt.
    unfold ingestALB, logrusLog, logrusFatal, call, osExit, panic, ret.
    destruct (describeLoadBalancers w [id]) as [err|[|lb lbs]]; [done | done |].
    destruct (describeLoadBalancerAttributes w (LoadBalancerArn lb)) as [err|attrs];
      [done|].
    destruct (scanAttributes attrs) as [[[] b] p]; [done|].
    by destruct explicit.
Qed.

Lemma ingestAll_panics (w : World) (opt : Options) (explicit names : list string)
      (st : Stater) :
  outcome (ingestAll ingestALB w opt explicit names st) = Panic ->
  exists id, id ∈ names /\ describeLoadBalancers w [id] = inr [].
Proof.
  induction names as [|n names IH]; [done|].
  rewrite ingestAll_cons, outcome_bind.
  destruct (outcome (ingestAll ingestALB w opt explicit [n] st)) as [[]| | |] eqn:Hone;
    try done.
  - intros Hrest. destruct (IH Hrest) as (id & Hid & Hempty).
    exists id. split; [by apply list_elem_of_further | done].
  - intros _. exists n. split; [apply list_elem_of_here|].
    by apply (ingestOne_panics w opt explicit n st).
Qed.

(** How [cmdALB] can end, for a subcommand that is present. *)
Lemma cmdALB_outcomes (w : World) (opt : Options) (sub : string) (rest : list string) :
  let run := cmdALB ingestALB w opt (sub :: rest) in
  (outcome run = Panic /\
   (newSession w <> None \/ exists id, describeLoadBalancers w [id] = inr [])) \/
  (outcome run = Ret None /\ (sub = "ls" \/ sub = "list") /\
   newSession w = None /\ exists lbs, describeLoadBalancers w [] = inr lbs) \/
  (exists err, outcome run = Ret (Some err)) \/
  outcome run = Exit 1 \/
  outcome run = Blocked.
Proof.
  intros run. subst run.
  destruct (newSession w) as [e|] eqn:Hsess.
  { left. unfold cmdALB. rewrite Hsess. split; [done | by left]. }
  destruct (describeLoadBalancers w []) as [e|lbs] eqn:Hlist.
  { right; right; left. exists e. unfold cmdALB. by rewrite Hsess, Hlist. }
  destruct (String.eqb sub "ls" || String.eqb sub "list") eqn:Hls.
  { right; left. unfold cmdALB. rewrite Hsess, Hlist, Hls, forEach_println.
    split; [done|]. split; [|by eauto].
    apply orb_true_iff in Hls as [H | H]; apply String.eqb_eq in H; auto. }
  destruct (String.eqb sub "ingest") eqn:Hingest.
  2:{ right; right; left. eexists. unfold cmdALB.
      by rewrite Hsess, Hlist, Hls, Hingest. }
  apply String.eqb_eq in Hingest as ->. clear Hls.
  destruct (String.eqb (WriteKey opt) "") eqn:Hkey.
  { do 3 right. left. unfold cmdALB. rewrite Hsess, Hlist.
    change (String.eqb "ingest" "ls" || String.eqb "ingest" "list") with false.
    change (String.eqb "ingest" "ingest") with true. cbv iota. by rewrite Hkey. }
  destruct ((BackfillHr opt <? 1) || (BackfillHr opt >? 168)) eqn:Hh.
  { do 3 right. left. unfold cmdALB. rewrite Hsess, Hlist.
    change (String.eqb "ingest" "ls" || String.eqb "ingest" "list") with false.
    change (String.eqb "ingest" "ingest") with true. cbv iota. by rewrite Hkey, Hh. }
  destruct (HighAvail opt) eqn:Hha; [destruct (newDynamoDBStater w) as [e|] eqn:Hdyn|].
  { do 3 right. left. unfold cmdALB. rewrite Hsess, Hlist.
    change (String.eqb "ingest" "ls" || String.eqb "ingest" "list") with false.
    change (String.eqb "ingest" "ingest") with true. cbv iota. rewrite Hkey, Hh.
    unfold when, newStater. by rewrite Hha, Hdyn. }
  all: apply writeKey_check in Hkey; apply backfill_check in Hh.
  all: rewrite (cmdALB_ingest_started w opt rest lbs) by first [done | congruence].
  all: rewrite publishLoop_spec, bind_Ret; cbn [outcome snd]; rewrite outcome_bind.
  all: pose proof (ingestAll_panics w opt rest (targets lbs rest) (staterOf opt)) as Hpanic.
  all: destruct (ingestAll_calls w opt rest (targets lbs rest) (staterOf opt))
         as [_ [Ho | [Ho | Ho]]]; rewrite Ho in Hpanic |- *.
  all: try (do 3 right; by left).
  all: try (left; split; [done|]; right;
            destruct (Hpanic eq_refl) as (id & _ & Hid); by exists id).
  all: unfold call; rewrite !bind_Ret; cbn [outcome snd].
  all: destruct (existsb isInterrupt (arrivals w)); auto.
Qed.

(** How [main] hands on what [cmdALB] gives. *)
Lemma main_after_cmdALB (w : World) (inv : Invocation) (opt : Options)
      (sub : string) (rest : list string) :
  parsed inv = inr (opt, sub :: rest) ->
  osStat w (StateDir opt) <> StatNotExist ->
  Version opt = false ->
  outcome (honeyalb w inv) =
  match outcome (cmdALB ingestALB w (fixDataset opt) (sub :: rest)) with
  | Ret None => Ret tt
  | Ret (Some _) => Exit 1
  | Exit c => Exit c
  | Panic => Panic
  | Blocked => Blocked
  end.
Proof.
  intros Hparsed Hstat Hver.
  rewrite (main_reaches_cmdALB w inv opt sub rest Hparsed Hstat Hver).
  rewrite bind_Ret. cbn [outcome snd]. rewrite outcome_bind.
  by destruct (outcome (cmdALB ingestALB w (fixDataset opt) (sub :: rest))) as [[e|]| | |].
Qed.


(** X13: the process ends with status 0 in two cases only: --version was
    given, or the subcommand is ls or list and the session and the listing
    succeeded.  No run of ingest and no unknown subcommand ends with 0. *)
Theorem X13_status_zero_has_two_causes
  (w : World) (inv : Invocation)
  (Hzero : exitStatus (outcome (honeyalb w inv)) = Some 0) :
  exists opt args,
    parsed inv = inr (opt, args) /\
    (Version opt = true \/
     exists sub rest lbs,
       args = sub :: rest /\ (sub = "ls" \/ sub = "list") /\
       newSession w = None /\ describeLoadBalancers w [] = inr lbs).
Proof.
  destruct (parsed inv) as [e|[opt args]] eqn:Hparsed.
  { unfold honeyalb, main in Hzero. by rewrite Hparsed in Hzero. }
  exists opt, args. split; [done|].
  destruct (decide (osStat w (StateDir opt) = StatNotExist)) as [Hstat|Hstat].
  { by rewrite (main_missing_state_dir w inv opt args Hparsed Hstat) in Hzero. }
  destruct (Version opt) eqn:Hver; [by left | right].
  destruct args as [|sub rest].
  { by rewrite (main_usage w inv opt Hparsed Hstat Hver) in Hzero. }
  rewrite (main_after_cmdALB w inv opt sub rest Hparsed Hstat Hver) in Hzero.
  destruct (cmdALB_outcomes w (fixDataset opt) sub rest)
    as [[Ho _] | [(Ho & Hsub & Hsess & lbs & Hlist) | [[err Ho] | [Ho | Ho]]]];
    try (by rewrite Ho in Hzero).
  by exists sub, rest, lbs.
Qed.

(** *** One stater for the whole run *)

Lemma ingestOne_stater (w : World) (opt : Options) (explicit : list string)
      (id : string) :
  Forall (sharesStater opt)
         (trace (ingestAll ingestALB w opt explicit [id] (staterOf opt))).
Proof.
  destruct (accessLogs w id) as [[|]|] eqn:Hlogs.
  - destruct (ingestOne_enabled w opt explicit id (staterOf opt) Hlogs)
      as (arn & b & p & ->).
    cbn [trace fst]. repeat (apply Forall_cons_2 || apply Forall_nil_2); done.
  - destruct explicit as [|x explicit].
    + destruct (ingestOne_disabled_auto w opt id (staterOf opt) Hlogs) as (arn & ->).
      cbn [trace fst]. repeat (apply Forall_cons_2 || apply Forall_nil_2); done.
    + destruct (ingestOne_disabled_explicit w opt (x :: explicit) id (staterOf opt))
        as (arn & ->); [done..|].
      cbn [trace fst]. repeat (apply Forall_cons_2 || apply Forall_nil_2); done.
  - clear Hlogs. unfold ingestAll. cbn [forEach]. rewrite bind_ret_tt.
    unfold ingestALB, logrusLog, logrusFatal, call, osExit, panic, ret.
    destruct (describeLoadBalancers w [id]) as [err|[|lb lbs]];
      [cbn; repeat (apply Forall_cons_2 || apply Forall_nil_2); done..|].
    destruct (describeLoadBalancerAttributes w (LoadBalancerArn lb)) as [err|attrs];
      [cbn; repeat (apply Forall_cons_2 || apply Forall_nil_2); done|].
    destruct (scanAttributes attrs) as [[[] b] p]; [|destruct explicit];
      cbn; repeat (apply Forall_cons_2 || apply Forall_nil_2); done.
Qed.

Lemma ingestAll_stater (w : World) (opt : Options) (explicit names : list string) :
  Forall (sharesStater opt)
         (trace (ingestAll ingestALB w opt explicit names (staterOf opt))).
Proof.
  induction names as [|n names IH]; [by constructor|].
  rewrite ingestAll_cons, trace_bind. apply Forall_app. split.
  - apply ingestOne_stater.
  - by destruct (outcome (ingestAll ingestALB w opt explicit [n] (staterOf opt))).
Qed.

Lemma filter_none (f : Event -> bool) (t : list Event) :
  Forall (fun e => f e = false) t -> List.filter f t = [].
Proof.
  induction 1 as [|e t He _ IH]; [done|]. cbn [List.filter]. by rewrite He.
Qed.

(** X14: a started run of the ingest subcommand makes one stater, the
    DynamoDB one with --highavail and the file one for the configured state
    directory without, and that stater, with the configured backfill hours,
    is the one given to the publisher and to every downloader. *)
Theorem X14_one_stater_for_all
  (w : World) (opt : Options) (explicit : list string) (lbs : list LoadBalancer)
  (Hsess : newSession w = None)
  (Hlist : describeLoadBalancers w [] = inr lbs)
  (Hkey : WriteKey opt <> "")
  (Hh : 1 <= BackfillHr opt <= 168)
  (Hdyn : HighAvail opt = true -> newDynamoDBStater w = None) :
  Forall (sharesStater opt) (trace (cmdALB ingestALB w opt ("ingest" :: explicit))) /\
  length (List.filter isLedgerCall
            (trace (cmdALB ingestALB w opt ("ingest" :: explicit)))) = 1%nat.
Proof.
  rewrite (cmdALB_ingest_started w opt explicit lbs Hsess Hlist Hkey Hh Hdyn).
  rewrite publishLoop_spec, bind_Ret. cbn [trace fst]. rewrite trace_bind.
  pose proof (ingestAll_stater w opt explicit (targets lbs explicit)) as Hshared.
  destruct (ingestAll_calls w opt explicit (targets lbs explicit) (staterOf opt))
    as [Hcalls _].
  assert (Hnone : List.filter isLedgerCall
            (trace (ingestAll ingestALB w opt explicit (targets lbs explicit)
                              (staterOf opt))) = []).
  { apply filter_none. eapply Forall_impl; [exact Hcalls|].
    by intros e (_ & _ & _ & He & _). }
  assert (Hloop : forall inbox, List.filter isLedgerCall (loopCalls inbox) = []).
  { intros inbox. apply filter_none. eapply Forall_impl; [apply loopCalls_quiet|].
    intros e He. by destruct e. }
  assert (Hquiet : forall inbox, Forall (sharesStater opt) (loopCalls inbox)).
  { intros inbox. eapply Forall_impl; [apply loopCalls_quiet|].
    intros e He. by destruct e. }
  split.
  - apply Forall_app. split.
    { unfold startCalls, staterOf. destruct (HighAvail opt) eqn:Hha;
        repeat (apply Forall_cons_2 || apply Forall_nil_2);
        cbn; unfold staterOf; rewrite ?Hha; done. }
    apply Forall_app. split; [done|].
    destruct (outcome (ingestAll ingestALB w opt explicit (targets lbs explicit)
                                 (staterOf opt))); try by constructor.
    unfold call. rewrite !bind_Ret. cbn [trace fst app].
    repeat apply Forall_cons_2; try done; apply Hquiet.
  - rewrite !List.filter_app, Hnone.
    assert (Hstart : List.filter isLedgerCall (startCalls opt) =
                     [if HighAvail opt then NewDynamoDBStater (BackfillHr opt)
                      else NewFileStater (StateDir opt) (BackfillHr opt)]).
    { unfold startCalls. by destruct (HighAvail opt). }
    rewrite Hstart.
    destruct (outcome (ingestAll ingestALB w opt explicit (targets lbs explicit)
                                 (staterOf opt))); try done.
    unfold call. rewrite !bind_Ret. cbn [trace fst app List.filter isLedgerCall].
    by rewrite Hloop.
Qed.

(** *** The further properties on the example worlds *)

Lemma X2_version_flag_wins_witness :
  Version (withStateDir demoOptions "." true) = true /\
  exitStatus (outcome (honeyalb demoWorld
                         (demoInvocation (withStateDir demoOptions "." true) [])))
  = Some 0.
Proof.
  split; [reflexivity|].
  assert (Hstat : osStat demoWorld (StateDir (withStateDir demoOptions "." true))
                  <> StatNotExist) by discriminate.
  destruct (X2_version_flag_wins demoWorld
              (demoInvocation (withStateDir demoOptions "." true) [])
              (withStateDir demoOptions "." true) [] eq_refl Hstat eq_refl) as [Hrun _].
  rewrite Hrun. reflexivity.
Defined.

Lemma X3_no_arguments_prints_usage_witness :
  exitStatus (outcome (honeyalb demoWorld (demoInvocation demoOptions []))) = Some 1.
Proof.
  assert (Hstat : osStat demoWorld (StateDir demoOptions) <> StatNotExist)
    by discriminate.
  destruct (X3_no_arguments_prints_usage demoWorld (demoInvocation demoOptions [])
              demoOptions eq_refl Hstat eq_refl) as [Hrun _].
  rewrite Hrun. reflexivity.
Defined.

Lemma X4_other_stat_errors_are_ignored_witness :
  osStat loggingWorld (StateDir demoOptions) = StatOtherError /\
  honeyalb loggingWorld (demoInvocation demoOptions ["ls"]) =
  honeyalb (setStat loggingWorld (fun _ => StatOk)) (demoInvocation demoOptions ["ls"]).
Proof.
  split; [reflexivity|].
  assert (Hstat : osStat loggingWorld (StateDir demoOptions) <> StatNotExist)
    by discriminate.
  exact (X4_other_stat_errors_are_ignored loggingWorld
           (demoInvocation demoOptions ["ls"]) demoOptions ["ls"] eq_refl Hstat).
Defined.

Lemma X6_ls_prints_the_listing_witness :
  WriteKey (withWriteKey demoOptions "") = "" /\
  cmdALB ingestALB demoWorld (withWriteKey demoOptions "") ["list"; "extra"] =
  ([NewSession; DescribeLoadBalancers []; Println [VStr "web"]; Println [VStr "api"]],
   Ret None).
Proof.
  split; [reflexivity|].
  exact (X6_ls_prints_the_listing demoWorld (withWriteKey demoOptions "") "list"
           ["extra"] [lbWeb; lbApi] eq_refl eq_refl (or_intror eq_refl)).
Defined.


Lemma X9_setup_completes_in_order_witness :
  downloaderIds (trace (cmdALB ingestALB loggingWorld demoOptions
                               ["ingest"; "api"; "other"; "api"]))
  = ["api"; "other"; "api"].
Proof.
  assert (Hkey : WriteKey demoOptions <> "") by discriminate.
  assert (Hh : 1 <= BackfillHr demoOptions <= 168) by (cbn; lia).
  assert (Hdyn : HighAvail demoOptions = true -> newDynamoDBStater loggingWorld = None)
    by discriminate.
  destruct (X9_setup_completes_in_order loggingWorld demoOptions ["api"; "other"; "api"]
              [lbWeb; lbApi] eq_refl eq_refl Hkey Hh Hdyn) as [Hiff Hrun].
  assert (Hall : Forall (fun n => accessLogs loggingWorld n = Some true \/
                                  (["api"; "other"; "api"] = [] /\
                                   accessLogs loggingWorld n = Some false))
                        ["api"; "other"; "api"]).
  { repeat (apply Forall_cons_2 || apply Forall_nil_2); by left. }
  destruct (Hrun (proj2 Hiff Hall)) as (_ & Hids & _).
  exact Hids.
Defined.

Lemma X10_handler_after_setup_witness :
  exists pre,
    trace (cmdALB ingestALB demoWorld demoOptions ["ingest"]) =
      pre ++ SignalNotify :: GoSignalWaiter :: loopCalls (arrivals demoWorld) /\
    (SignalNotify ∉ pre) /\
    publishAttempts pre = [] /\
    Forall (fun e => isSetupCall e = false) (loopCalls (arrivals demoWorld)).
Proof.
  assert (Hin : SignalNotify ∈ trace (cmdALB ingestALB demoWorld demoOptions ["ingest"])).
  { apply (bool_decide_unpack _). vm_compute. exact I. }
  exact (X10_handler_after_setup demoWorld demoOptions [] Hin).
Defined.

Lemma X11_backfill_duration_is_exact_witness :
  Log DebugLevel [("hours", VDuration 86400000000000)] (VStr "Backfill will be")
    ∈ trace (cmdALB ingestALB demoWorld demoOptions ["ingest"]).
Proof.
  assert (Hkey : WriteKey demoOptions <> "") by discriminate.
  assert (Hh : 1 <= BackfillHr demoOptions <= 168) by (cbn; lia).
  assert (Hdyn : HighAvail demoOptions = true -> newDynamoDBStater demoWorld = None)
    by discriminate.
  exact (proj1 (X11_backfill_duration_is_exact demoWorld demoOptions []
                  [lbWeb; lbApi] eq_refl eq_refl Hkey Hh Hdyn)).
Defined.


Lemma X13_status_zero_has_two_causes_witness :
  exists opt args,
    parsed (demoInvocation demoOptions ["ls"]) = inr (opt, args) /\
    (Version opt = true \/
     exists sub rest lbs,
       args = sub :: rest /\ (sub = "ls" \/ sub = "list") /\
       newSession demoWorld = None /\ describeLoadBalancers demoWorld [] = inr lbs).
Proof.
  assert (Hzero : exitStatus (outcome (honeyalb demoWorld (demoInvocation demoOptions ["ls"])))
                  = Some 0) by (vm_compute; reflexivity).
  exact (X13_status_zero_has_two_causes demoWorld (demoInvocation demoOptions ["ls"]) Hzero).
Defined.

Lemma X14_one_stater_for_all_witness :
  length (List.filter isLedgerCall
            (trace (cmdALB ingestALB loggingWorld demoOptions ["ingest"; "web"])))
  = 1%nat.
Proof.
  assert (Hkey : WriteKey demoOptions <> "") by discriminate.
  assert (Hh : 1 <= BackfillHr demoOptions <= 168) by (cbn; lia).
  assert (Hdyn : HighAvail demoOptions = true -> newDynamoDBStater loggingWorld = None)
    by discriminate.
  exact (proj2 (X14_one_stater_for_all loggingWorld demoOptions ["web"]
                  [lbWeb; lbApi] eq_refl eq_refl Hkey Hh Hdyn)).
Defined.
